(** * ts-rest: contract builder, schema validation and Next.js dispatch

    A shallow embedding of the runtime parts of the repository that the
    specification talks about:

    - [libs/ts-rest/core/src/lib/zod-utils.ts]  ([isZodObject], [checkZodSchema]),
    - the contract DSL ([isAppRoute], [recursivelyApplyOptions], [initContract]),
    - the Next.js adapter ([isRouteCorrect], [getRouteImplementation],
      [createSingleRouteHandler], [handlerFactory]),
    - the Express adapter's [validateRequest].

    JavaScript values are modelled by one universe [JsValue]; objects are
    property lists in enumeration order, because [Object.keys] order decides
    which route wins in the dispatcher. *)

From Stdlib Require Import String Ascii List ZArith Bool Lia DecimalString.
Import ListNotations.
Local Open Scope string_scope.
Local Open Scope list_scope.
Set Warnings "-register-all".

(* ------------------------------------------------------------------ *)
(** ** Errors thrown by the JavaScript runtime *)

Inductive Exc (A : Type) : Type :=
| Ok (a : A)
| TypeError (msg : string).
Arguments Ok {A} a.
Arguments TypeError {A} msg.

Definition bindExc {A B : Type} (c : Exc A) (k : A -> Exc B) : Exc B :=
  match c with
  | Ok a => k a
  | TypeError m => TypeError m
  end.

Notation "x <- c ;; k" := (bindExc c (fun x => k))
  (at level 61, c at next level, right associativity).

(* ------------------------------------------------------------------ *)
(** ** The zod library: schema syntax

    zod is an external dependency.  Only the fragment used by the
    repository's tests is modelled: three primitive validators and object
    schemas with their unknown-keys policy ([z.object(..)] is [strip],
    [.strict()] is [strict], [.passthrough()] is [passthrough]). *)

Module Zod.

Inductive UnknownKeysParam := strip | strict | passthrough.

Inductive ZodType :=
| ZodString
| ZodNumber
| ZodBoolean
| ZodObject (shape : list (string * ZodType)) (unknownKeys : UnknownKeysParam).

End Zod.

(* ------------------------------------------------------------------ *)
(** ** JavaScript values *)

Module Js.

(** Numbers are the integer-valued ones; an object is the list of its own
    enumerable string-keyed properties in enumeration order, so its keys
    are pairwise distinct ([distinct] below).  JavaScript enumerates keys
    that are array indices before the others; the keys that the modelled
    code adds ([headers], parameter names) are not indices, and a new key
    goes last. *)
Inductive JsValue :=
| JUndefined
| JNull
| JBool (b : bool)
| JNumber (n : Z)
| JString (s : string)
| JArray (items : list JsValue)
| JObject (props : list (string * JsValue))
| JZod (schema : Zod.ZodType).

Definition JsObject := list (string * JsValue).

(** [v === undefined] *)
Definition is_undefined (v : JsValue) : bool :=
  match v with JUndefined => true | _ => false end.

(** ToBoolean *)
Definition truthy (v : JsValue) : bool :=
  match v with
  | JUndefined | JNull => false
  | JBool b => b
  | JNumber n => negb (Z.eqb n 0)
  | JString s => negb (String.eqb s "")
  | JArray _ | JObject _ | JZod _ => true
  end.

(** [typeof v === 'object'] *)
Definition typeof_object (v : JsValue) : bool :=
  match v with
  | JNull | JArray _ | JObject _ | JZod _ => true
  | _ => false
  end.

(** Property lists. *)
Fixpoint has_key {A : Type} (k : string) (o : list (string * A)) : bool :=
  match o with
  | [] => false
  | (k', _) :: rest => if String.eqb k k' then true else has_key k rest
  end.

Fixpoint obj_lookup {A : Type} (k : string) (o : list (string * A)) : option A :=
  match o with
  | [] => None
  | (k', v) :: rest => if String.eqb k k' then Some v else obj_lookup k rest
  end.

(** [o[k]] on a plain object *)
Definition obj_get (k : string) (o : JsObject) : JsValue :=
  match obj_lookup k o with
  | Some v => v
  | None => JUndefined
  end.

(** [o[k] = v]: an existing key keeps its place, a new key goes last. *)
Fixpoint obj_set {A : Type} (k : string) (v : A) (o : list (string * A))
  : list (string * A) :=
  match o with
  | [] => [(k, v)]
  | (k', v') :: rest =>
      if String.eqb k k' then (k', v) :: rest else (k', v') :: obj_set k v rest
  end.

(** [Object.assign(target, entries)], also the meaning of a spread
    [{...target, ...source}] *)
Definition assign {A : Type} (target source : list (string * A))
  : list (string * A) :=
  fold_left (fun acc kv => obj_set (fst kv) (snd kv) acc) source target.

(** [Object.fromEntries] *)
Definition Object_fromEntries {A : Type} (entries : list (string * A))
  : list (string * A) :=
  assign [] entries.

(** Decimal index keys of arrays and strings. *)
Definition index_key (i : nat) : string :=
  NilEmpty.string_of_uint (Nat.to_uint i).

Fixpoint indexed {A : Type} (i : nat) (l : list A) : list (string * A) :=
  match l with
  | [] => []
  | x :: rest => (index_key i, x) :: indexed (S i) rest
  end.

Fixpoint chars (s : string) : list JsValue :=
  match s with
  | EmptyString => []
  | String c rest => JString (String c EmptyString) :: chars rest
  end.

(** Own enumerable string-keyed properties, as copied by a spread; [null]
    and [undefined] spread to nothing.  A zod schema instance is opaque in
    this model and contributes no properties. *)
Definition own_entries (v : JsValue) : JsObject :=
  match v with
  | JObject props => props
  | JArray items => indexed 0 items
  | JString s => indexed 0 (chars s)
  | _ => []
  end.

(** [v?.k] *)
Definition opt_get (k : string) (v : JsValue) : JsValue :=
  match v with
  | JObject props => obj_get k props
  | _ => JUndefined
  end.

(** [v?.k1?.k2 ...] *)
Definition get_in (p : list string) (v : JsValue) : JsValue :=
  fold_left (fun x k => opt_get k x) p v.

(** Strings. *)
Fixpoint split (sep : ascii) (s : string) : list string :=
  match s with
  | EmptyString => [EmptyString]
  | String c rest =>
      if Ascii.eqb c sep then EmptyString :: split sep rest
      else match split sep rest with
           | [] => [String c EmptyString]
           | h :: t => String c h :: t
           end
  end.

(** [entries.map(([key, value]) => [key, f(value)])], where [f] may throw *)
Definition map_entries {A B : Type} (f : A -> Exc B)
  : list (string * A) -> Exc (list (string * B)) :=
  fix each (l : list (string * A)) : Exc (list (string * B)) :=
    match l with
    | [] => Ok []
    | (key, value) :: rest =>
        value' <- f value ;;
        rest' <- each rest ;;
        Ok ((key, value') :: rest')
    end.

(** [l.slice(1)] *)
Definition slice1 {A : Type} (l : list A) : list A := tl l.

(** [s.startsWith(c)] for a one-character prefix *)
Definition startsWith (c : ascii) (s : string) : bool :=
  match s with
  | EmptyString => false
  | String c' _ => Ascii.eqb c' c
  end.

(** [s.slice(1)] *)
Definition string_slice1 (s : string) : string :=
  match s with
  | EmptyString => EmptyString
  | String _ rest => rest
  end.

Definition keys {A : Type} (o : list (string * A)) : list string := map fst o.

(** The keys of an object are pairwise distinct. *)
Fixpoint distinct (l : list string) : bool :=
  match l with
  | [] => true
  | k :: rest => negb (existsb (String.eqb k) rest) && distinct rest
  end.

End Js.

Import Js.

(* ------------------------------------------------------------------ *)
(** ** The zod library: [safeParse] *)

Module ZodParse.
Import Zod.

Inductive ZodIssueCode :=
| invalid_type
| unrecognized_keys (extra : list string).

(** An issue: the field path and a machine-readable code (the
    human-readable message is derived from the two). *)
Record ZodIssue := mkIssue { code : ZodIssueCode; path : list string }.

Definition ZodError := list ZodIssue.

Inductive SafeParseReturn :=
| ParseSuccess (data : JsValue)
| ParseFailure (error : ZodError).

(** The keys of the input that the shape does not declare. *)
Definition undeclared (shape : list (string * ZodType)) (props : JsObject)
  : JsObject :=
  filter (fun kv => negb (has_key (fst kv) shape)) props.

(** One parsing pass: the issues found and the output built so far. *)
Fixpoint parse (t : ZodType) (at_path : list string) (data : JsValue)
  {struct t} : ZodError * JsValue :=
  match t with
  | ZodString =>
      match data with
      | JString _ => ([], data)
      | _ => ([mkIssue invalid_type at_path], JUndefined)
      end
  | ZodNumber =>
      match data with
      | JNumber _ => ([], data)
      | _ => ([mkIssue invalid_type at_path], JUndefined)
      end
  | ZodBoolean =>
      match data with
      | JBool _ => ([], data)
      | _ => ([mkIssue invalid_type at_path], JUndefined)
      end
  | ZodObject shape unknownKeys =>
      match data with
      | JObject props =>
          let fields :=
            (fix fields (sh : list (string * ZodType))
               : ZodError * JsObject :=
               match sh with
               | [] => ([], [])
               | (key, validator) :: rest =>
                   let r := parse validator (at_path ++ [key]) (obj_get key props) in
                   let rs := fields rest in
                   (fst r ++ fst rs,
                    if has_key key props || negb (is_undefined (snd r))
                    then (key, snd r) :: snd rs
                    else snd rs)
               end) shape in
          let extra := undeclared shape props in
          match unknownKeys with
          | strip => (fst fields, JObject (snd fields))
          | passthrough => (fst fields, JObject (snd fields ++ extra))
          | strict =>
              match extra with
              | [] => (fst fields, JObject (snd fields))
              | _ :: _ =>
                  (fst fields ++ [mkIssue (unrecognized_keys (keys extra)) at_path],
                   JObject (snd fields))
              end
          end
      | _ => ([mkIssue invalid_type at_path], JUndefined)
      end
  end.

(** The fields of an object schema, parsed against the properties of the
    input (the inner loop of [parse], by itself). *)
Fixpoint parse_fields (at_path : list string) (props : JsObject)
  (sh : list (string * ZodType)) : ZodError * JsObject :=
  match sh with
  | [] => ([], [])
  | (key, validator) :: rest =>
      let r := parse validator (at_path ++ [key]) (obj_get key props) in
      let rs := parse_fields at_path props rest in
      (fst r ++ fst rs,
       if has_key key props || negb (is_undefined (snd r))
       then (key, snd r) :: snd rs
       else snd rs)
  end.

(** [schema.safeParse(data)] *)
Definition safeParse (schema : ZodType) (data : JsValue) : SafeParseReturn :=
  match parse schema [] data with
  | ([], out) => ParseSuccess out
  | (issues, _) => ParseFailure issues
  end.

(** [a.merge(b)]: the union of the shapes, [b]'s validator on a common key,
    and [b]'s unknown-keys policy. *)
Definition merge (a b : ZodType) : ZodType :=
  match a, b with
  | ZodObject sa _, ZodObject sb ub => ZodObject (assign sa sb) ub
  | _, _ => b
  end.

End ZodParse.

(* ------------------------------------------------------------------ *)
(** ** [zod-utils.ts] *)

Module ZodUtils.
Import Zod ZodParse.

(** [(body as z.AnyZodObject)?.safeParse !== undefined].  Every zod schema
    instance has the method; a plain object has it when it carries a
    property of that name. *)
Definition isZodObject (body : JsValue) : bool :=
  match body with
  | JZod _ => true
  | JObject props => negb (is_undefined (obj_get "safeParse" props))
  | _ => false
  end.

Inductive CheckResult :=
| Success (data : JsValue)
| Failure (error : ZodError).

(** [checkZodSchema(data, schema, { passThroughExtraKeys = false } = {})] *)
Definition checkZodSchema (data schema : JsValue) (passThroughExtraKeys : bool)
  : Exc CheckResult :=
  if isZodObject schema then
    match schema with
    | JZod z =>
        match safeParse z data with
        | ParseSuccess result_data =>
            Ok (Success
                  (if passThroughExtraKeys && typeof_object data
                   then JObject (assign (assign [] (own_entries data))
                                        (own_entries result_data))
                   else result_data))
        | ParseFailure error => Ok (Failure error)
        end
    | _ => TypeError "schema.safeParse is not a function"
    end
  else Ok (Success data).

(** The third argument left out. *)
Definition checkZodSchema_default (data schema : JsValue) : Exc CheckResult :=
  checkZodSchema data schema false.

(** Modelled from the spec: [zodMerge] is imported from [./zod-utils] by the
    contract DSL and by the tests, but the [zod-utils.ts] at hand does not
    define it.  The three cases (both absent, one present, both present with
    the union of the fields and B's validator on a common field) are the
    spec's section 4.2.  For the unknown-keys policy of the merged schema the
    spec's sections 4.2 and 8 disagree with each other; the definition takes
    the policy of B, which is what the repository's own [zodMerge] tests
    (strict+strip accepts and strips, strip+strict rejects) and the
    [UniversalMerge] type ([B['_def']['unknownKeys']]) fix. *)
Definition zodMerge (schemaA schemaB : option ZodType) : option ZodType :=
  match schemaA, schemaB with
  | None, None => None
  | Some a, None => Some a
  | None, Some b => Some b
  | Some a, Some b => Some (merge a b)
  end.

End ZodUtils.

(* ------------------------------------------------------------------ *)
(** ** The contract DSL ([dsl.ts])

    A contract is a plain JavaScript object; the builder tells a route from
    a nested router by the presence of the two keys [method] and [path]. *)

Module Dsl.

(** ['method' in obj && 'path' in obj].  The [in] operator throws on a
    value that is not an object. *)
Definition isAppRoute (obj : JsValue) : Exc bool :=
  match obj with
  | JObject props => Ok (has_key "method" props && has_key "path" props)
  | JArray _ | JZod _ => Ok false
  | _ => TypeError "Cannot use 'in' operator to search for 'method'"
  end.

Section Builder.

(** [zodMerge] is not defined in the sources at hand; the builder is
    modelled for any merge function. *)
Variable zodMerge : JsValue -> JsValue -> JsValue.

(** [{ ...value, headers: zodMerge(options?.baseHeaders, value.headers) }] *)
Definition applyOptions (value options : JsValue) : JsValue :=
  JObject
    (obj_set "headers"
       (zodMerge (opt_get "baseHeaders" options) (opt_get "headers" value))
       (assign [] (own_entries value))).

(** The callback of [Object.entries(router).map]; [nested] is the recursive
    call on [value]. *)
Definition applyEntry (options value : JsValue) (nested : Exc JsValue)
  : Exc JsValue :=
  b <- isAppRoute value ;;
  if b then Ok (applyOptions value options) else nested.

(** [recursivelyApplyOptions(router, options)].  The recursive call is only
    reached on a value that passed the [in] test, that is, on an object. *)
Fixpoint recursivelyApplyOptions (router options : JsValue) {struct router}
  : Exc JsValue :=
  match router with
  | JObject props =>
      entries <-
        map_entries
          (fun value =>
             applyEntry options value (recursivelyApplyOptions value options))
          props ;;
      Ok (JObject (Object_fromEntries entries))
  | JArray items =>
      entries <-
        (fix map_items (i : nat) (l : list JsValue) : Exc JsObject :=
           match l with
           | [] => Ok []
           | value :: rest =>
               value' <- applyEntry options value
                           (recursivelyApplyOptions value options) ;;
               rest' <- map_items (S i) rest ;;
               Ok ((index_key i, value') :: rest')
           end) 0%nat items ;;
      Ok (JObject (Object_fromEntries entries))
  | JUndefined | JNull =>
      TypeError "Cannot convert undefined or null to object"
  | JString (String _ _) =>
      TypeError "Cannot use 'in' operator to search for 'method'"
  | _ => Ok (JObject [])
  end.

(** [initContract().router(endpoints, options)] *)
Definition router (endpoints options : JsValue) : Exc JsValue :=
  recursivelyApplyOptions endpoints options.

End Builder.

(** Distinct keys, hereditarily: the property lists that are JavaScript
    objects. *)
Fixpoint wf_value (v : JsValue) : bool :=
  match v with
  | JObject props =>
      distinct (keys props) &&
      (fix all (l : JsObject) : bool :=
         match l with
         | [] => true
         | (_, c) :: rest => wf_value c && all rest
         end) props
  | JArray items =>
      (fix all (l : list JsValue) : bool :=
         match l with
         | [] => true
         | c :: rest => wf_value c && all rest
         end) items
  | _ => true
  end.

(** A route: a plain object carrying [method] and [path]. *)
Definition is_route (v : JsValue) : bool :=
  match v with
  | JObject props => has_key "method" props && has_key "path" props
  | _ => false
  end.

(** The values of type [AppRouter]: objects whose children are routes or
    routers. *)
Fixpoint is_router (v : JsValue) : bool :=
  match v with
  | JObject props =>
      (fix all (l : JsObject) : bool :=
         match l with
         | [] => true
         | (_, c) :: rest => (is_route c || is_router c) && all rest
         end) props
  | _ => false
  end.

(** The route met by following the keys [p] from the router down, as the
    builder descends: through routers only, stopping at the first route. *)
Fixpoint route_at (router : JsValue) (p : list string) : option JsObject :=
  match p, router with
  | key :: p', JObject props =>
      match obj_lookup key props with
      | Some (JObject child) =>
          if is_route (JObject child)
          then match p' with [] => Some child | _ :: _ => None end
          else route_at (JObject child) p'
      | _ => None
      end
  | _, _ => None
  end.

(** The contract with the options applied to every route, written as a
    map over the tree. *)
Fixpoint applied (zodMerge : JsValue -> JsValue -> JsValue)
  (options router : JsValue) {struct router} : JsValue :=
  match router with
  | JObject props =>
      JObject
        ((fix each (l : JsObject) : JsObject :=
            match l with
            | [] => []
            | (key, value) :: rest =>
                (key, if is_route value
                      then applyOptions zodMerge value options
                      else applied zodMerge options value) :: each rest
            end) props)
  | _ => router
  end.

(** What [applied] does to one property. *)
Definition apply_child (zodMerge : JsValue -> JsValue -> JsValue)
  (options : JsValue) (kv : string * JsValue) : string * JsValue :=
  (fst kv, if is_route (snd kv)
           then applyOptions zodMerge (snd kv) options
           else applied zodMerge options (snd kv)).

(** The headers a route gets from the builder. *)
Definition merged_headers (zodMerge : JsValue -> JsValue -> JsValue)
  (options : JsValue) (leaf : JsObject) : JsValue :=
  zodMerge (opt_get "baseHeaders" options) (obj_get "headers" leaf).


End Dsl.

(* ------------------------------------------------------------------ *)
(** ** The Next.js adapter ([ts-rest-next.ts]) *)

Module Next.
Import ZodParse.

Inductive Method := GET | POST | DELETE | PUT | PATCH.

Definition method_name (m : Method) : string :=
  match m with
  | GET => "GET" | POST => "POST" | DELETE => "DELETE"
  | PUT => "PUT" | PATCH => "PATCH"
  end.

(** [AppRoute], with the fields the adapter reads. *)
Record AppRoute := mkRoute {
  method : Method;
  path : string;
  pathParams : JsValue;
  headers : JsValue;
  query : JsValue;
  body : JsValue;
  responses : list (Z * JsValue)
}.

(** [NextApiRequest], with the fields the adapter reads. *)
Record NextApiRequest := mkReq {
  req_url : string;
  req_method : string;
  req_query : JsValue;
  req_headers : JsValue;
  req_body : JsValue
}.

Definition ValidationError := ZodError.

(** What can be thrown inside the handler. *)
Inductive Thrown :=
| RequestValidationError (pathParams headers query body : option ValidationError)
| TsRestResponseError (statusCode : Z) (body : JsValue)
| OtherError (e : JsValue).

(** The argument of an implementation, and how its promise settles. *)
Record ImplArgs := mkArgs {
  arg_body : JsValue;
  arg_query : JsValue;
  arg_params : JsValue;
  arg_headers : JsValue;
  arg_req : NextApiRequest
}.

Inductive Settled :=
| Resolved (status : Z) (body : JsValue)
| Rejected (e : Thrown).

Definition AppRouteImplementation := ImplArgs -> Settled.

(** [{ ...appRoute, implementation }] *)
Record AppRouteWithImplementation := mkImpl {
  route : AppRoute;
  implementation : AppRouteImplementation
}.

(** [AppRouterWithImplementation]: the children of a router, in
    [Object.keys] order, are routes with their implementation or routers. *)
Inductive Node :=
| RouteNode (r : AppRouteWithImplementation)
| RouterNode (children : list (string * Node)).

Definition AppRouterWithImplementation := list (string * Node).

(** [obj?.implementation !== undefined && obj?.method].  A route carries
    both; a router passes the test when it has children of these two
    names. *)
Definition isAppRouteWithImplementation (obj : Node) : bool :=
  match obj with
  | RouteNode _ => true
  | RouterNode children =>
      has_key "implementation" children && has_key "method" children
  end.

(** The segments of a path template: [path.split('/').slice(1)] *)
Definition segments (p : string) : list string := slice1 (split "/" p).

(** [isRouteCorrect(route, query, method)] *)
Definition isRouteCorrect (route : AppRoute) (query : list string)
  (method : string) : bool :=
  let pathAsArray := segments (path route) in
  if Nat.eqb (length pathAsArray) (length query)
     && String.eqb (method_name (Next.method route)) method
  then
    fold_left
      (fun matches i =>
         let isCurrElementWildcard := startsWith ":" (nth i pathAsArray "") in
         if negb isCurrElementWildcard
            && negb (String.eqb (nth i pathAsArray "") (nth i query ""))
         then false
         else matches)
      (seq 0 (length pathAsArray)) true
  else false.

(** [getRouteImplementation(router, query, method)]: [visit] is the body of
    the loop for one child.  A router that passes
    [isAppRouteWithImplementation] is handed to [isRouteCorrect], where
    [route.path.split] is not a function. *)
Fixpoint visit (query : list string) (method : string) (appRoute : Node)
  {struct appRoute} : Exc (option AppRouteWithImplementation) :=
  match appRoute with
  | RouteNode r =>
      if isRouteCorrect (route r) query method then Ok (Some r) else Ok None
  | RouterNode children =>
      if isAppRouteWithImplementation appRoute
      then TypeError "route.path.split is not a function"
      else
        (fix loop (l : list (string * Node))
           : Exc (option AppRouteWithImplementation) :=
           match l with
           | [] => Ok None
           | (_, child) :: rest =>
               found <- visit query method child ;;
               match found with
               | Some r => Ok (Some r)
               | None => loop rest
               end
           end) children
  end.

Fixpoint getRouteImplementation (router : AppRouterWithImplementation)
  (query : list string) (method : string)
  : Exc (option AppRouteWithImplementation) :=
  match router with
  | [] => Ok None
  | (_, child) :: rest =>
      found <- visit query method child ;;
      match found with
      | Some r => Ok (Some r)
      | None => getRouteImplementation rest query method
      end
  end.

(** Modelled from the spec: [getPathParamsFromArray] is imported from
    [./path-utils], which is not among the sources at hand.  Section 4.5: walk the template
    segments and the actual segments pairwise; a template segment that
    begins with the marker binds the rest of its characters to the actual
    segment; other segments bind nothing. *)
Definition getPathParamsFromArray (urlChunks : list string) (route : AppRoute)
  : JsObject :=
  fold_left
    (fun pathParams pair =>
       if startsWith ":" (fst pair)
       then obj_set (string_slice1 (fst pair)) (JString (snd pair)) pathParams
       else pathParams)
    (combine (segments (path route)) urlChunks) [].

(** The routes of a tree in the order the search meets them. *)
Fixpoint leaves_node (n : Node) : list AppRouteWithImplementation :=
  match n with
  | RouteNode r => [r]
  | RouterNode children =>
      (fix go (l : list (string * Node)) : list AppRouteWithImplementation :=
         match l with
         | [] => []
         | (_, c) :: rest => leaves_node c ++ go rest
         end) children
  end.

Fixpoint leaves (router : AppRouterWithImplementation)
  : list AppRouteWithImplementation :=
  match router with
  | [] => []
  | (_, c) :: rest => leaves_node c ++ leaves rest
  end.

(** No router of the tree is mistaken for a route. *)
Fixpoint plain_node (n : Node) : bool :=
  match n with
  | RouteNode _ => true
  | RouterNode children =>
      negb (isAppRouteWithImplementation n) &&
      (fix go (l : list (string * Node)) : bool :=
         match l with
         | [] => true
         | (_, c) :: rest => plain_node c && go rest
         end) children
  end.

Fixpoint plain (router : AppRouterWithImplementation) : bool :=
  match router with
  | [] => true
  | (_, c) :: rest => plain_node c && plain rest
  end.

(** The spec's route matching, in its words: the methods are equal, the
    template and the request have the same number of segments, and every
    template segment that does not begin with the marker equals the
    request's segment at the same place. *)
Definition route_matches (route : AppRoute) (query : list string)
  (method : string) : Prop :=
  method_name (Next.method route) = method /\
  length (segments (path route)) = length query /\
  forall i template actual,
    nth_error (segments (path route)) i = Some template ->
    nth_error query i = Some actual ->
    startsWith ":" template = false ->
    template = actual.


(** *** The handler *)

(** What is sent: a value, or the error of a failed validation. *)
Inductive Payload :=
| PValue (v : JsValue)
| PError (e : ValidationError).

(** The calls made on the response object. *)
Inductive ResCall :=
| status_end (code : Z)                      (* res.status(code).end() *)
| status_json (code : Z) (b : Payload)       (* res.status(code).json(b) *)
| status_send (code : Z) (b : Payload)       (* res.status(code).send(b) *)
| setHeader (name value : JsValue).          (* res.setHeader(name, value) *)

(** How a run of the handler ends: the calls made on the response, and
    the exception that escapes, if one does. *)
Inductive Outcome :=
| Completed (calls : list ResCall)
| Threw (calls : list ResCall) (e : Thrown).

Record CreateNextRouterOptions := mkOptions {
  jsonQuery : option bool;
  responseValidation : option bool;
  throwRequestValidation : option bool;
  errorHandler : option (Thrown -> NextApiRequest -> list ResCall)
}.

(** A destructuring default: [{ flag = false } = options || {}] *)
Definition option_flag (options : option CreateNextRouterOptions)
  (flag : CreateNextRouterOptions -> option bool) : bool :=
  match options with
  | Some o => match flag o with Some b => b | None => false end
  | None => false
  end.

(** The result of [checkStandardSchema]: [{ value }] or [{ error }]. *)
Inductive StandardResult :=
| ResultValue (value : JsValue)
| ResultError (error : ValidationError).

Definition result_error (r : StandardResult) : option ValidationError :=
  match r with ResultError e => Some e | ResultValue _ => None end.

Definition result_value (r : StandardResult) : JsValue :=
  match r with ResultValue v => v | ResultError _ => JUndefined end.

(** What [getArgumentsFromRequest] returns. *)
Record Arguments_ := mkArguments {
  args_pathParams : JsObject;
  args_query : JsValue;
  args_route : option AppRouteWithImplementation
}.

(** [createSingleRouteHandler]'s [getArgumentsFromRequest].  [pathParams]
    is read as a mapping: [pathParams[key]] is an own property or
    [undefined]. *)
Definition singleRouteArguments (appRoute : AppRoute)
  (implementationHandler : AppRouteImplementation) (req : NextApiRequest)
  : Arguments_ :=
  let route := mkImpl appRoute implementationHandler in
  let urlChunks := slice1 (split "/" (req_url req)) in
  let pathParams := getPathParamsFromArray urlChunks appRoute in
  let query :=
    if truthy (req_query req)
    then JObject
           (Object_fromEntries
              (filter (fun entry => is_undefined (obj_get (fst entry) pathParams))
                 (own_entries (req_query req))))
    else JObject [] in
  let isValidRoute := isRouteCorrect appRoute urlChunks (req_method req) in
  mkArguments pathParams query (if isValidRoute then Some route else None).

Definition lookup_response (responses : list (Z * JsValue)) (statusCode : Z)
  : JsValue :=
  match find (fun kv => Z.eqb (fst kv) statusCode) responses with
  | Some kv => snd kv
  | None => JUndefined
  end.

Section Handler.

(** Imported from [@ts-rest/core] and not among the sources at hand; the
    handler is modelled for any of them. *)
Variable checkStandardSchema : JsValue -> JsValue -> bool -> StandardResult.
Variable parseJsonQueryObject : JsValue -> JsValue.
Variable validateResponse : AppRoute -> Z -> JsValue -> Thrown + JsValue.
Variable isAppRouteNoBody : JsValue -> bool.
Variable isAppRouteOtherResponse : JsValue -> bool.

(** The query handed to query validation:
    [jsonQuery ? parseJsonQueryObject(query) : req.query] *)
Definition queryToValidate (options : option CreateNextRouterOptions)
  (args : Arguments_) (req : NextApiRequest) : JsValue :=
  if option_flag options jsonQuery
  then parseJsonQueryObject (args_query args)
  else req_query req.

(** The four validations, in the order the handler runs them. *)
Record Validations := mkValidations {
  pathParamsResult : StandardResult;
  headersResult : StandardResult;
  queryResult : StandardResult;
  bodyResult : StandardResult
}.

Definition validate (options : option CreateNextRouterOptions)
  (args : Arguments_) (route : AppRoute) (req : NextApiRequest) : Validations :=
  let pathParamsResult :=
    checkStandardSchema (JObject (args_pathParams args)) (pathParams route) true in
  let headersResult :=
    checkStandardSchema (req_headers req) (headers route) true in
  let query := queryToValidate options args req in
  let queryResult := checkStandardSchema query (Next.query route) false in
  let bodyResult := checkStandardSchema (req_body req) (body route) false in
  mkValidations pathParamsResult headersResult queryResult bodyResult.

(** The part of the [try] block after the validation test. *)
Definition respond (options : option CreateNextRouterOptions)
  (r : AppRouteWithImplementation) (v : Validations) (req : NextApiRequest)
  : Outcome :=
  let settled :=
    implementation r
      (mkArgs (result_value (bodyResult v)) (result_value (queryResult v))
              (result_value (pathParamsResult v))
              (result_value (headersResult v)) req) in
  let result :=
    match settled with
    | Resolved status body => inr (status, body)
    | Rejected (TsRestResponseError statusCode body) => inr (statusCode, body)
    | Rejected e => inl e
    end in
  match result with
  | inl e => Threw [] e
  | inr (statusCode, result_body) =>
      let validated :=
        if option_flag options responseValidation
        then validateResponse (route r) statusCode result_body
        else inr result_body in
      match validated with
      | inl e => Threw [] e
      | inr validatedResponseBody =>
          let responseType := lookup_response (responses (route r)) statusCode in
          if isAppRouteNoBody responseType
          then Completed [status_end statusCode]
          else if isAppRouteOtherResponse responseType
          then Completed
                 [setHeader (JString "content-type")
                            (opt_get "contentType" responseType);
                  status_send statusCode (PValue validatedResponseBody)]
          else Completed [status_json statusCode (PValue validatedResponseBody)]
      end
  end.

(** The [try] block, up to the call of the implementation. *)
Definition tryBlock (options : option CreateNextRouterOptions)
  (r : AppRouteWithImplementation) (v : Validations) (req : NextApiRequest)
  : Outcome :=
  let pe := result_error (pathParamsResult v) in
  let he := result_error (headersResult v) in
  let qe := result_error (queryResult v) in
  let be := result_error (bodyResult v) in
  match pe, he, qe, be with
  | None, None, None, None => respond options r v req
  | _, _, _, _ =>
      if option_flag options throwRequestValidation
      then Threw [] (RequestValidationError pe he qe be)
      else
        match pe with
        | Some e => Completed [status_json 400 (PError e)]
        | None =>
        match he with
        | Some e => Completed [status_send 400 (PError e)]
        | None =>
        match qe with
        | Some e => Completed [status_json 400 (PError e)]
        | None =>
        match be with
        | Some e => Completed [status_json 400 (PError e)]
        | None => respond options r v req
        end end end end
  end.

(** [handlerFactory(getArgumentsFromRequest, options)(req, res)] *)
Definition handlerFactory (getArgumentsFromRequest : NextApiRequest -> Arguments_)
  (options : option CreateNextRouterOptions) (req : NextApiRequest) : Outcome :=
  let args := getArgumentsFromRequest req in
  match args_route args with
  | None => Completed [status_end 404]
  | Some r =>
      let v := validate options args (route r) req in
      match tryBlock options r v req with
      | Completed calls => Completed calls
      | Threw calls e =>
          match options with
          | Some o =>
              match errorHandler o with
              | Some handler => Completed (calls ++ handler e req)
              | None => Threw calls e
              end
          | None => Threw calls e
          end
      end
  end.

(** [createSingleRouteHandler(appRoute, implementationHandler, options)] *)
Definition createSingleRouteHandler (appRoute : AppRoute)
  (implementationHandler : AppRouteImplementation)
  (options : option CreateNextRouterOptions) : NextApiRequest -> Outcome :=
  handlerFactory (singleRouteArguments appRoute implementationHandler) options.

End Handler.

(** *** What a response carries *)

Definition calls_of (o : Outcome) : list ResCall :=
  match o with
  | Completed calls => calls
  | Threw calls _ => calls
  end.

(** The response was sent with this validation error as its body. *)
Definition carries (o : Outcome) (e : ValidationError) : Prop :=
  exists code, In (status_json code (PError e)) (calls_of o)
               \/ In (status_send code (PError e)) (calls_of o).

(** The response carries the error of every validation that failed. *)
Definition reports_all_errors (o : Outcome) (v : Validations) : Prop :=
  forall e,
    In (Some e) [result_error (pathParamsResult v);
                 result_error (headersResult v);
                 result_error (queryResult v);
                 result_error (bodyResult v)] ->
    carries o e.

(** The 400 response of the first validation that failed, in the order
    path params, headers, query, body. *)
Definition first_failure (v : Validations) : option ResCall :=
  match result_error (pathParamsResult v) with
  | Some e => Some (status_json 400 (PError e))
  | None =>
  match result_error (headersResult v) with
  | Some e => Some (status_send 400 (PError e))
  | None =>
  match result_error (queryResult v) with
  | Some e => Some (status_json 400 (PError e))
  | None =>
  match result_error (bodyResult v) with
  | Some e => Some (status_json 400 (PError e))
  | None => None
  end end end end.

(** The error that throw mode raises: the results of all four. *)
Definition aggregated (v : Validations) : Thrown :=
  RequestValidationError
    (result_error (pathParamsResult v)) (result_error (headersResult v))
    (result_error (queryResult v)) (result_error (bodyResult v)).

(** [options?.errorHandler] *)
Definition configured_errorHandler (options : option CreateNextRouterOptions)
  : option (Thrown -> NextApiRequest -> list ResCall) :=
  match options with
  | Some o => errorHandler o
  | None => None
  end.

End Next.

(* ------------------------------------------------------------------ *)
(** ** The Express adapter ([ts-rest-express.ts]): [validateRequest] *)

Module Express.
Import ZodParse ZodUtils.

Record Request := mkRequest {
  params : JsValue;
  headers : JsValue;
  query : JsValue;
  body : JsValue
}.

Record Options := mkOptions {
  logInitialization : option bool;
  jsonQuery : option bool;
  responseValidation : option bool
}.

(** Either [res.status(400).send(error)] or the three results. *)
Inductive Validated :=
| Sent400 (error : ZodError)
| Results (paramsResult headersResult queryResult : JsValue).

Section ValidateRequest.

Variable parseJsonQueryObject : JsValue -> JsValue.

Definition validateRequest (req : Request) (schema : Next.AppRoute)
  (options : Options) : Exc Validated :=
  paramsResult <- checkZodSchema (params req) (Next.pathParams schema) true ;;
  match paramsResult with
  | Failure error => Ok (Sent400 error)
  | Success paramsData =>
      headersResult <- checkZodSchema (headers req) (Next.headers schema) true ;;
      match headersResult with
      | Failure error => Ok (Sent400 error)
      | Success headersData =>
          let query :=
            match jsonQuery options with
            | Some true => parseJsonQueryObject (query req)
            | _ => query req
            end in
          queryResult <- checkZodSchema query (Next.query schema) false ;;
          match queryResult with
          | Failure error => Ok (Sent400 error)
          | Success queryData => Ok (Results paramsData headersData queryData)
          end
      end
  end.

End ValidateRequest.

End Express.

(* ------------------------------------------------------------------ *)
(** ** The contracts and requests of the repository's tests *)

Module Examples.
Import Zod ZodParse ZodUtils Next.

(** [checkZodSchema] tests *)
Definition schema_a : JsValue := JZod (ZodObject [("a", ZodNumber)] strip).
Definition data_ab : JsValue := JObject [("a", JNumber 1); ("b", JNumber 2)].
Definition data_a : JsValue := JObject [("a", JNumber 1)].

(** [zodMerge] tests *)
Definition foo_schema (policy : UnknownKeysParam) : ZodType :=
  ZodObject [("foo", ZodString)] policy.
Definition bar_schema (policy : UnknownKeysParam) : ZodType :=
  ZodObject [("bar", ZodString)] policy.
Definition foo_bar_baz : JsValue :=
  JObject [("foo", JString "a"); ("bar", JString "b"); ("baz", JString "c")].
Definition foo_bar : JsValue :=
  JObject [("foo", JString "a"); ("bar", JString "b")].

(** A schema, when one is present, validates and otherwise the data passes. *)
Definition validate_with (schema : option ZodType) (data : JsValue)
  : SafeParseReturn :=
  match schema with
  | Some z => safeParse z data
  | None => ParseSuccess data
  end.

(** The schema rejects the data. *)
Definition rejects (schema : option ZodType) (data : JsValue) : Prop :=
  exists error, validate_with schema data = ParseFailure error.

(** The policy of an object schema on keys it does not declare. *)
Definition rejects_unknown_keys (z : ZodType) : bool :=
  match z with
  | ZodObject _ strict => true
  | _ => false
  end.

(** The unknown-keys reading of the merger under which one lenient side
    makes the merged schema lenient. *)
Definition lenient_if_either (a b : ZodType) : Prop :=
  rejects_unknown_keys a = false \/ rejects_unknown_keys b = false ->
  forall merged, zodMerge (Some a) (Some b) = Some merged ->
                 rejects_unknown_keys merged = false.

(** The [createNextRouter] test contract, each route with an implementation
    that answers 200 with what it was given. *)
Definition echo_params : AppRouteImplementation :=
  fun args => Resolved 200 (arg_params args).
Definition echo_query : AppRouteImplementation :=
  fun args => Resolved 200 (arg_query args).

Definition route_get : AppRoute :=
  mkRoute GET "/test" JUndefined JUndefined JUndefined JUndefined
          [(200%Z, JUndefined)].
Definition route_getWithParams : AppRoute :=
  mkRoute GET "/test/:id" JUndefined JUndefined JNull JUndefined
          [(200%Z, JUndefined)].
Definition route_getWithQuery : AppRoute :=
  mkRoute GET "/test-query" JUndefined JUndefined JUndefined JUndefined
          [(200%Z, JUndefined)].
Definition route_advanced : AppRoute :=
  mkRoute POST "/advanced/:id" JUndefined JUndefined JUndefined JUndefined
          [(200%Z, JUndefined)].

Definition get : AppRouteWithImplementation := mkImpl route_get echo_query.
Definition getWithParams : AppRouteWithImplementation :=
  mkImpl route_getWithParams echo_params.
Definition getWithQuery : AppRouteWithImplementation :=
  mkImpl route_getWithQuery echo_query.
Definition advanced : AppRouteWithImplementation :=
  mkImpl route_advanced echo_params.

Definition combinedRouter : AppRouterWithImplementation :=
  [("get", RouteNode get);
   ("getWithParams", RouteNode getWithParams);
   ("getWithQuery", RouteNode getWithQuery);
   ("advanced", RouteNode advanced)].

(** A validator for the examples: zod schemas are checked by
    [checkZodSchema]; a value that is not a schema lets the data pass. *)
Definition zodChecker (data schema : JsValue) (passThroughExtraKeys : bool)
  : StandardResult :=
  match checkZodSchema data schema passThroughExtraKeys with
  | Ok (Success value) => ResultValue value
  | Ok (Failure error) => ResultError error
  | TypeError _ => ResultValue data
  end.

Definition noBody (responseType : JsValue) : bool := false.
Definition noValidation (r : AppRoute) (status : Z) (b : JsValue)
  : Thrown + JsValue := inr b.
Definition identityQuery (q : JsValue) : JsValue := q.

(** A mutation that needs an [authorization] header and a [title] in the
    body. *)
Definition route_createPost : AppRoute :=
  mkRoute POST "/posts" JUndefined
          (JZod (ZodObject [("authorization", ZodString)] strip))
          JUndefined
          (JZod (ZodObject [("title", ZodString)] strip))
          [(201%Z, JUndefined)].

Definition empty_post : NextApiRequest :=
  mkReq "/posts" "POST" (JObject []) (JObject []) (JObject []).

Definition missing_authorization : ValidationError :=
  [mkIssue invalid_type ["authorization"]].
Definition missing_title : ValidationError :=
  [mkIssue invalid_type ["title"]].

(** The single-route handler of that mutation with default options, run
    with the example validator, and the four validations it performs on the
    empty POST. *)
Definition createPost_handler : NextApiRequest -> Outcome :=
  createSingleRouteHandler zodChecker identityQuery noValidation noBody noBody
    route_createPost echo_query None.

Definition createPost_validations : Validations :=
  validate zodChecker identityQuery None
    (singleRouteArguments route_createPost echo_query empty_post)
    route_createPost empty_post.

(** A query route with a path parameter, and a request whose query string
    has a key of the same name. *)
Definition route_getPost : AppRoute :=
  mkRoute GET "/posts/:id" JUndefined JUndefined JUndefined JUndefined
          [(200%Z, JUndefined)].

Definition shadowed_request : NextApiRequest :=
  mkReq "/posts/3" "GET"
        (JObject [("id", JString "9"); ("keep", JString "1")])
        (JObject []) JUndefined.

(** The contracts of the [pathPrefix] and [strictStatusCodes] tests. *)
Definition getPost_route : JsValue :=
  JObject [("path", JString "/:id"); ("method", JString "GET");
           ("responses", JObject [("200", JUndefined)])].

Definition getPost_plain : JsValue :=
  JObject [("method", JString "GET"); ("path", JString "/posts/:id");
           ("responses", JObject [("200", JUndefined)])].

Definition getPost_strict (flag : bool) : JsValue :=
  JObject [("method", JString "GET"); ("path", JString "/posts/:id");
           ("responses", JObject [("200", JUndefined)]);
           ("strictStatusCodes", JBool flag)].

End Examples.

(* ------------------------------------------------------------------ *)
(** ** The Next.js handler: what the implementation is called with, and
    how its outcome is read *)

Module NextHandler.
Import Next.

(** The argument of [route.implementation(...)]. *)
Definition implementation_arguments (v : Validations) (req : NextApiRequest)
  : ImplArgs :=
  mkArgs (result_value (bodyResult v)) (result_value (queryResult v))
         (result_value (pathParamsResult v)) (result_value (headersResult v))
         req.

(** The inner [catch]: a [TsRestResponseError] is read as the result
    [{ status: e.statusCode, body: e.body }]. *)
Definition as_response (s : Settled) : Settled :=
  match s with
  | Rejected (TsRestResponseError statusCode body) => Resolved statusCode body
  | _ => s
  end.

(** The same arguments, with every implementation returning what it would
    have thrown as a [TsRestResponseError]. *)
Definition returning (getArgumentsFromRequest : NextApiRequest -> Arguments_)
  : NextApiRequest -> Arguments_ :=
  fun req =>
    let args := getArgumentsFromRequest req in
    mkArguments (args_pathParams args) (args_query args)
      (option_map
         (fun r => mkImpl (route r) (fun a => as_response (implementation r a)))
         (args_route args)).

Definition is_response_error (e : Thrown) : bool :=
  match e with
  | TsRestResponseError _ _ => true
  | _ => false
  end.

(** What the outer [catch] does with an exception. *)
Definition caught (options : option CreateNextRouterOptions) (e : Thrown)
  (req : NextApiRequest) : Outcome :=
  match configured_errorHandler options with
  | Some errorHandler => Completed (errorHandler e req)
  | None => Threw [] e
  end.

End NextHandler.

(* ------------------------------------------------------------------ *)
(** ** More contracts and requests, for the further properties *)

Module MoreExamples.
Import Zod ZodParse ZodUtils Next Examples.

(** An implementation that throws something that is not a
    [TsRestResponseError]. *)
Definition failing : AppRouteImplementation :=
  fun _ => Rejected (OtherError (JString "boom")).

Definition get_test : NextApiRequest :=
  mkReq "/test" "GET" (JObject []) (JObject []) JUndefined.

Definition post_test : NextApiRequest :=
  mkReq "/test" "POST" (JObject []) (JObject []) JUndefined.

(** A response validation that rejects every body. *)
Definition rejectingValidation (r : AppRoute) (status : Z) (b : JsValue)
  : Thrown + JsValue := inl (OtherError (JString "invalid response")).

Definition validating : CreateNextRouterOptions :=
  mkOptions None (Some true) None None.

(** The test contract with two of its routes moved into a nested router. *)
Definition nestedRouter : AppRouterWithImplementation :=
  [("get", RouteNode get);
   ("inner", RouterNode [("getWithParams", RouteNode getWithParams);
                         ("getWithQuery", RouteNode getWithQuery)]);
   ("advanced", RouteNode advanced)].

(** A router whose children are named like the two properties that
    [isAppRouteWithImplementation] looks for. *)
Definition misleading : Node :=
  RouterNode [("implementation", RouteNode get); ("method", RouteNode advanced)].

(** An object with a nested object, and a schema that declares one field
    of each. *)
Definition nested_schema : ZodType :=
  ZodObject [("a", ZodObject [("x", ZodNumber)] strip)] strip.
Definition nested_data : JsValue :=
  JObject [("a", JObject [("x", JNumber 1); ("y", JNumber 2)]);
           ("b", JNumber 2)].

End MoreExamples.

(* ------------------------------------------------------------------ *)
(** ** Values that are not objects *)

Module Primitives.

(** [undefined], [null], booleans, numbers and strings. *)
Definition is_primitive (v : JsValue) : bool :=
  match v with
  | JUndefined | JNull | JBool _ | JNumber _ | JString _ => true
  | JArray _ | JObject _ | JZod _ => false
  end.

End Primitives.

(* ------------------------------------------------------------------ *)
(** ** The Express adapter: [getValue], the walk over the implementations
    and [createExpressEndpoints] *)

Module ExpressEndpoints.
Import ZodParse ZodUtils.

(** [/[.[\]]/]: the characters at which [getValue] cuts a path. *)
Definition is_path_separator (c : ascii) : bool :=
  Ascii.eqb c "." || Ascii.eqb c "[" || Ascii.eqb c "]".

(** [s.split(re)] for a character class [re] *)
Fixpoint split_where (sep : ascii -> bool) (s : string) : list string :=
  match s with
  | EmptyString => [EmptyString]
  | String c rest =>
      if sep c then EmptyString :: split_where sep rest
      else match split_where sep rest with
           | [] => [String c EmptyString]
           | h :: t => String c h :: t
           end
  end.

(** [Boolean(s)] on a string *)
Definition nonempty (s : string) : bool := negb (String.eqb s "").

(** [keys.join('.')] *)
Definition join (sep : string) (l : list string) : string := String.concat sep l.

(** [value?.[key]].  Own properties of plain objects, and the indices and
    the length of arrays and strings.  Inherited members and the members
    of a schema instance are functions or internal objects, which are not
    values of this model; for them the result here is [undefined]. *)
Definition member (key : string) (value : JsValue) : JsValue :=
  match value with
  | JObject props => obj_get key props
  | JArray items =>
      if String.eqb key "length" then JNumber (Z.of_nat (length items))
      else obj_get key (indexed 0 items)
  | JString s =>
      if String.eqb key "length" then JNumber (Z.of_nat (String.length s))
      else obj_get key (indexed 0 (chars s))
  | _ => JUndefined
  end.

(** [getValue(data, path, defaultValue)]; a call without the third
    argument has [undefined] for it. *)
Definition getValue (data : JsValue) (path : string) (defaultValue : JsValue)
  : JsValue :=
  let value :=
    fold_left (fun value key => member key value)
      (filter nonempty (split_where is_path_separator path)) data in
  if is_undefined value then defaultValue else value.

(** The argument of an implementation: the query handler passes no
    [body]; [files] and [file] are [req.files] and [req.file]. *)
Record Upload := mkUpload {
  base : Express.Request;
  files : JsValue;
  file : JsValue
}.

Record Input := mkInput {
  in_params : JsValue;
  in_body : option JsValue;
  in_query : JsValue;
  in_headers : JsValue;
  in_files : option JsValue;
  in_file : option JsValue;
  in_req : Upload
}.

Inductive Settled :=
| Resolved (status : Z) (body : JsValue)
| Rejected (e : JsValue).

Definition AppRouteImplementation := Input -> Settled.

(** [RecursiveRouterObj | AppRouteImplementation]: a function, an object
    of such, or a value that is neither. *)
Inductive Primitive :=
| PUndefined | PNull | PBool (b : bool) | PNumber (n : Z) | PString (s : string).

Inductive RouterObj :=
| Func (route : AppRouteImplementation)
| Obj (children : list (string * RouterObj))
| Plain (p : Primitive).

(** How a run with side effects on a state ends: normally, or with an
    exception, in either case with the state as it then is. *)
Inductive Run (S E : Type) :=
| Finished (s : S)
| Aborted (s : S) (e : E).
Arguments Finished {S E} s.
Arguments Aborted {S E} s e.

Section Walk.
Variables S E : Type.
Variable routeTransformer : AppRouteImplementation -> list string -> S -> Run S E.

(** [recursivelyApplyExpressRouter(router, path, routeTransformer)].  A
    value that is neither an object nor a function is passed over, and so
    is [null], which is an object without keys. *)
Fixpoint recursivelyApplyExpressRouter (router : RouterObj) (path : list string)
  (s : S) {struct router} : Run S E :=
  match router with
  | Obj children =>
      (fix each (l : list (string * RouterObj)) (s : S) : Run S E :=
         match l with
         | [] => Finished s
         | (key, child) :: rest =>
             match recursivelyApplyExpressRouter child (path ++ [key]) s with
             | Finished s' => each rest s'
             | Aborted s' e => Aborted s' e
             end
         end) children s
  | Func route => routeTransformer route path s
  | Plain _ => Finished s
  end.

(** The transformer applied to a list of implementations, one after the
    other, up to the first that throws. *)
Fixpoint run_all (l : list (AppRouteImplementation * list string)) (s : S)
  : Run S E :=
  match l with
  | [] => Finished s
  | (route, path) :: rest =>
      match routeTransformer route path s with
      | Finished s' => run_all rest s'
      | Aborted s' e => Aborted s' e
      end
  end.

End Walk.

(** The functions of an implementation tree with their key paths, in
    definition order. *)
Fixpoint implementations (router : RouterObj) (path : list string)
  : list (AppRouteImplementation * list string) :=
  match router with
  | Obj children =>
      (fix each (l : list (string * RouterObj))
         : list (AppRouteImplementation * list string) :=
         match l with
         | [] => []
         | (key, child) :: rest =>
             implementations child (path ++ [key]) ++ each rest
         end) children
  | Func route => [(route, path)]
  | Plain _ => []
  end.

(** [router[k1][k2]...], when it is a function. *)
Fixpoint implementation_at (router : RouterObj) (path : list string)
  : option AppRouteImplementation :=
  match path, router with
  | [], Func route => Some route
  | key :: path', Obj children =>
      match obj_lookup key children with
      | Some child => implementation_at child path'
      | None => None
      end
  | _, _ => None
  end.

(** Objects with distinct keys, all the way down. *)
Fixpoint wf_router (router : RouterObj) : bool :=
  match router with
  | Obj children =>
      distinct (keys children) &&
      (fix all (l : list (string * RouterObj)) : bool :=
         match l with
         | [] => true
         | (_, c) :: rest => wf_router c && all rest
         end) children
  | _ => true
  end.

(** *** [createExpressEndpoints] *)

Inductive Verb := app_get | app_post | app_put | app_patch | app_delete.

(** What is done to the console and to the Express router: the line
    [[ts-rest] Initialized ${method} ${path}], given by its two values, and
    [app.verb(path, handler)], the handler given by the implementation and
    the contract route it closes over. *)
Inductive Event :=
| Logged (method path : JsValue)
| Registered (verb : Verb) (path : JsValue) (route : AppRouteImplementation)
    (schema : JsValue).

(** [new Error(message)], or a [TypeError] of the runtime *)
Inductive Exception :=
| Error (message : string)
| RuntimeTypeError (message : string).

(** [options.flag], as a condition *)
Definition flag (f : option bool) : bool :=
  match f with Some b => b | None => false end.

(** The default of the [options] parameter. *)
Definition defaultOptions : Express.Options :=
  Express.mkOptions (Some true) (Some false) (Some false).

Definition log_initialization (schema : JsValue) (options : Express.Options)
  (app : list Event) : list Event :=
  if flag (Express.logInitialization options)
  then app ++ [Logged (opt_get "method" schema) (opt_get "path" schema)]
  else app.

(** [transformAppRouteQueryImplementation(route, schema, app, options)] *)
Definition transformAppRouteQueryImplementation (route : AppRouteImplementation)
  (schema : JsValue) (options : Express.Options) (app : list Event)
  : list Event :=
  log_initialization schema options app
    ++ [Registered app_get (opt_get "path" schema) route schema].

(** The [switch] on the method: a method that is none of the four
    registers nothing. *)
Definition mutation_verb (method : JsValue) : option Verb :=
  match method with
  | JString "DELETE" => Some app_delete
  | JString "POST" => Some app_post
  | JString "PUT" => Some app_put
  | JString "PATCH" => Some app_patch
  | _ => None
  end.

(** [transformAppRouteMutationImplementation(route, schema, app, options)] *)
Definition transformAppRouteMutationImplementation
  (route : AppRouteImplementation) (schema : JsValue)
  (options : Express.Options) (app : list Event) : list Event :=
  let app := log_initialization schema options app in
  match mutation_verb (opt_get "method" schema) with
  | Some verb => app ++ [Registered verb (opt_get "path" schema) route schema]
  | None => app
  end.

(** [routerViaPath.method === 'GET'] *)
Definition is_GET (method : JsValue) : bool :=
  match method with
  | JString m => String.eqb m "GET"
  | _ => false
  end.

(** The callback that [createExpressEndpoints] hands to the walk. *)
Definition endpoint (schema : JsValue) (options : Express.Options)
  (route : AppRouteImplementation) (path : list string) (app : list Event)
  : Run (list Event) Exception :=
  let routerViaPath := getValue schema (join "." path) JUndefined in
  if negb (truthy routerViaPath)
  then Aborted app (Error ("[ts-rest] No router found for path " ++ join "." path))
  else
    match Dsl.isAppRoute routerViaPath with
    | TypeError msg => Aborted app (RuntimeTypeError msg)
    | Ok true =>
        if is_GET (opt_get "method" routerViaPath)
        then Finished
               (transformAppRouteQueryImplementation route routerViaPath options app)
        else Finished
               (transformAppRouteMutationImplementation route routerViaPath
                  options app)
    | Ok false =>
        Aborted app
          (Error ("Could not find schema route implementation for "
                  ++ join "." path))
    end.

(** [createExpressEndpoints(schema, router, app, options)] *)
Definition createExpressEndpoints (schema : JsValue) (router : RouterObj)
  (app : list Event) (options : option Express.Options)
  : Run (list Event) Exception :=
  let options := match options with Some o => o | None => defaultOptions end in
  recursivelyApplyExpressRouter (list Event) Exception (endpoint schema options)
    router [] app.

(** The key has no character at which a path is cut, and is not empty. *)
Fixpoint no_separator (s : string) : bool :=
  match s with
  | EmptyString => true
  | String c rest => negb (is_path_separator c) && no_separator rest
  end.

Definition plain_key (s : string) : bool := nonempty s && no_separator s.

(** The verb under which a contract route is registered. *)
Definition verb_for (method : JsValue) : option Verb :=
  if is_GET method then Some app_get else mutation_verb method.

(** The state at the end of a run. *)
Definition final_state {S E : Type} (r : Run S E) : S :=
  match r with
  | Finished s => s
  | Aborted s _ => s
  end.

Definition aborted {S E : Type} (r : Run S E) : bool :=
  match r with
  | Finished _ => false
  | Aborted _ _ => true
  end.

(** The [options] that [createExpressEndpoints] works with. *)
Definition options_or_default (options : option Express.Options)
  : Express.Options :=
  match options with Some o => o | None => defaultOptions end.

End ExpressEndpoints.

(* ------------------------------------------------------------------ *)
(** ** The Express adapter: the request handlers *)

Module ExpressHandlers.
Import ZodParse ZodUtils ExpressEndpoints.

Inductive Sent :=
| SentError (error : ZodError)
| SentBody (body : JsValue).

(** How a handler ends: [res.status(code).send(..)], [res.status(code).json(..)],
    [next(e)], or an exception that escapes the [async] function. *)
Inductive Outcome :=
| status_send (code : Z) (what : Sent)
| status_json (code : Z) (what : Sent)
| next (e : JsValue)
| Escaped (message : string).

Section Handlers.

(** Imported from [@ts-rest/core] and not among the sources at hand. *)
Variable parseJsonQueryObject : JsValue -> JsValue.
Variable validateResponse : JsValue -> Z -> JsValue -> JsValue + JsValue.

(** The [try] block of both handlers: call the implementation and send
    what it returns; whatever it or the response validation throws goes to
    [next]. *)
Definition respond (route : AppRouteImplementation) (schema : Next.AppRoute)
  (options : Express.Options) (input : Input) : Outcome :=
  match route input with
  | Rejected e => next e
  | Resolved statusCode body =>
      if flag (Express.responseValidation options)
      then match validateResponse
                   (Next.lookup_response (Next.responses schema) statusCode)
                   statusCode body with
           | inl e => next e
           | inr validated => status_json statusCode (SentBody validated)
           end
      else status_json statusCode (SentBody body)
  end.

(** The handler that [transformAppRouteQueryImplementation] registers. *)
Definition queryHandler (route : AppRouteImplementation) (schema : Next.AppRoute)
  (options : Express.Options) (req : Upload) : Outcome :=
  match Express.validateRequest parseJsonQueryObject (base req) schema options with
  | TypeError msg => Escaped msg
  | Ok (Express.Sent400 error) => status_send 400 (SentError error)
  | Ok (Express.Results paramsData headersData queryData) =>
      respond route schema options
        (mkInput paramsData None queryData headersData None None req)
  end.

(** The handler that [transformAppRouteMutationImplementation] registers. *)
Definition mutationHandler (route : AppRouteImplementation)
  (schema : Next.AppRoute) (options : Express.Options) (req : Upload) : Outcome :=
  match Express.validateRequest parseJsonQueryObject (base req) schema options with
  | TypeError msg => Escaped msg
  | Ok (Express.Sent400 error) => status_send 400 (SentError error)
  | Ok (Express.Results paramsData headersData queryData) =>
      match checkZodSchema (Express.body (base req)) (Next.body schema) false with
      | TypeError msg => Escaped msg
      | Ok (Failure error) => status_send 400 (SentError error)
      | Ok (Success bodyData) =>
          respond route schema options
            (mkInput paramsData (Some bodyData) queryData headersData
                     (Some (files req)) (Some (file req)) req)
      end
  end.

End Handlers.

(** The error of the first check that fails, in the order params, headers,
    query, body; the query checked being the parsed one in [jsonQuery]
    mode. *)
Definition check_error (r : Exc CheckResult) : option ZodError :=
  match r with
  | Ok (Failure error) => Some error
  | _ => None
  end.

Definition checked_query (parseJsonQueryObject : JsValue -> JsValue)
  (options : Express.Options) (req : Express.Request) : JsValue :=
  match Express.jsonQuery options with
  | Some true => parseJsonQueryObject (Express.query req)
  | _ => Express.query req
  end.

(** The four checks of the mutation handler, in its order. *)
Definition request_checks (parseJsonQueryObject : JsValue -> JsValue)
  (schema : Next.AppRoute) (options : Express.Options) (req : Express.Request)
  : list (Exc CheckResult) :=
  [checkZodSchema (Express.params req) (Next.pathParams schema) true;
   checkZodSchema (Express.headers req) (Next.headers schema) true;
   checkZodSchema (checked_query parseJsonQueryObject options req)
     (Next.query schema) false;
   checkZodSchema (Express.body req) (Next.body schema) false].

End ExpressHandlers.

(* ------------------------------------------------------------------ *)
(** ** The Nest adapter ([api.decorator.ts]) *)

Module Nest.
Import ZodParse ZodUtils.

(** What the decorator and the interceptor throw; an exception made from
    a validation error is given by that error. *)
Inductive Exception :=
| Error (message : string)
| BadRequestException (error : ZodError)
| InternalServerErrorException (error : ZodError)
| RuntimeTypeError (message : string).

Inductive Result (A : Type) :=
| Returns (a : A)
| Throws (e : Exception).
Arguments Returns {A} a.
Arguments Throws {A} e.

(** [ApiDecoratorShape]: what the controller method receives. *)
Record Shape := mkShape {
  query : JsValue;
  params : JsValue;
  body : JsValue
}.

(** [!!(Reflect.getMetadata(symbol, handler) || Reflect.getMetadata(symbol, class))],
    given the two metadata values. *)
Definition enabled (ofHandler ofClass : JsValue) : bool :=
  truthy ofHandler || truthy ofClass.

Section Decorator.

(** Imported from [@ts-rest/core] and not among the sources at hand. *)
Variable parseJsonQueryObject : JsValue -> JsValue.

(** One validation of the decorator: a failure is a
    [BadRequestException]. *)
Definition check (data schema : JsValue) (passThroughExtraKeys : bool)
  (k : JsValue -> Result Shape) : Result Shape :=
  match checkZodSchema data schema passThroughExtraKeys with
  | TypeError msg => Throws (RuntimeTypeError msg)
  | Ok (Failure error) => Throws (BadRequestException error)
  | Ok (Success data') => k data'
  end.

(** The body of [ApiDecorator]: [appRoute] is the metadata of the handler,
    absent when the method is not decorated with [@Api()]. *)
Definition ApiDecorator (appRoute : option Next.AppRoute)
  (jsonQueryOfHandler jsonQueryOfClass : JsValue) (req : Express.Request)
  : Result Shape :=
  match appRoute with
  | None => Throws (Error "Make sure your route is decorated with @Api()")
  | Some appRoute =>
      let isJsonQuery := enabled jsonQueryOfHandler jsonQueryOfClass in
      let query :=
        if isJsonQuery then parseJsonQueryObject (Express.query req)
        else Express.query req in
      check query (Next.query appRoute) false (fun queryData =>
      check (Express.body req)
            (match Next.method appRoute with
             | Next.GET => JNull
             | _ => Next.body appRoute
             end) false (fun bodyData =>
      check (Express.params req) (Next.pathParams appRoute) true (fun paramsData =>
      Returns (mkShape queryData paramsData bodyData))))
  end.

End Decorator.

(** [isAppRouteResponse(value)]: not [null], an object, with a [status]
    that is a number. *)
Definition isAppRouteResponse (value : JsValue) : bool :=
  match value with
  | JObject props =>
      has_key "status" props &&
      match obj_get "status" props with JNumber _ => true | _ => false end
  | _ => false
  end.

(** What the interceptor does to a value of the controller: the status it
    sets on the response, if it sets one, and the value it passes on. *)
Record Intercepted := mkIntercepted {
  status_set : option Z;
  passed_on : JsValue
}.

(** [intercept]: the function mapped over the values of the handler. *)
Definition intercept (appRoute : option Next.AppRoute)
  (parseResponsesOfHandler parseResponsesOfClass : JsValue) (value : JsValue)
  : Result Intercepted :=
  match appRoute with
  | None => Throws (Error "Make sure your route is decorated with @Api()")
  | Some appRoute =>
      if isAppRouteResponse value then
        match opt_get "status" value with
        | JNumber statusNumber =>
            let isParsingEnabled :=
              enabled parseResponsesOfHandler parseResponsesOfClass in
            match checkZodSchema (opt_get "body" value)
                    (if isParsingEnabled
                     then Next.lookup_response (Next.responses appRoute) statusNumber
                     else JUndefined) false with
            | TypeError msg => Throws (RuntimeTypeError msg)
            | Ok (Failure error) => Throws (InternalServerErrorException error)
            | Ok (Success data) => Returns (mkIntercepted (Some statusNumber) data)
            end
        | _ => Returns (mkIntercepted None value)
        end
      else Returns (mkIntercepted None value)
  end.

End Nest.

(* ------------------------------------------------------------------ *)
(** ** Implementations and requests for the Express and Nest properties *)

Module AdapterExamples.
Import Zod ZodParse ZodUtils ExpressEndpoints.

Definition ok_handler : AppRouteImplementation :=
  fun _ => Resolved 200 (JObject []).
Definition created_handler : AppRouteImplementation :=
  fun _ => Resolved 201 (JObject []).

(** [{ posts: { getPost, createPost } }], as contract and as
    implementation. *)
Definition posts_contract : JsValue :=
  JObject
    [("posts",
      JObject
        [("getPost",
          JObject [("method", JString "GET"); ("path", JString "/posts/:id")]);
         ("createPost",
          JObject [("method", JString "POST"); ("path", JString "/posts")])])].

Definition posts_router : RouterObj :=
  Obj [("posts", Obj [("getPost", Func ok_handler);
                      ("createPost", Func created_handler)])].

(** An implementation with a function the contract has no route for. *)
Definition extra_router : RouterObj :=
  Obj [("posts", Obj [("getPost", Func ok_handler);
                      ("removePost", Func ok_handler)])].

(** A mutation with schemas for the path parameters and the body. *)
Definition updatePost : Next.AppRoute :=
  Next.mkRoute Next.PUT "/posts/:id"
    (JZod (ZodObject [("id", ZodString)] strip))
    JUndefined JUndefined
    (JZod (ZodObject [("title", ZodString)] strip))
    [(200%Z, JUndefined)].

(** The same as a query route: the body schema stays, the method is GET. *)
Definition readPost : Next.AppRoute :=
  Next.mkRoute Next.GET "/posts/:id"
    (JZod (ZodObject [("id", ZodString)] strip))
    JUndefined JUndefined
    (JZod (ZodObject [("title", ZodString)] strip))
    [(200%Z, JZod (ZodObject [("id", ZodString)] strip))].

Definition bare_request : Express.Request :=
  Express.mkRequest (JObject [("id", JString "7")]) (JObject []) (JObject [])
    (JObject []).

Definition bare_upload : Upload := mkUpload bare_request JUndefined JUndefined.

Definition no_options : Express.Options := Express.mkOptions None None None.

(** A route that declares no schema at all. *)
Definition ping : Next.AppRoute :=
  Next.mkRoute Next.GET "/ping" JUndefined JUndefined JUndefined JUndefined [].

End AdapterExamples.

(* ================================================================== *)
(** * Properties *)

(* ------------------------------------------------------------------ *)
(** ** Property lists *)

Section PropertyLists.
Context {A : Type}.
Implicit Types (o s t : list (string * A)) (k : string).

Lemma has_key_lookup k o :
  has_key k o = match obj_lookup k o with Some _ => true | None => false end.
Proof.
  induction o as [|[k' v] o IH]; simpl; [reflexivity|].
  destruct (String.eqb k k'); auto.
Qed.

Lemma has_key_In k o : has_key k o = true <-> In k (keys o).
Proof.
  induction o as [|[k' v] o IH]; simpl.
  - split; [discriminate | tauto].
  - destruct (String.eqb_spec k k') as [->|Hne].
    + split; auto.
    + rewrite IH. split; [auto | intros [E|H]; [congruence | exact H]].
Qed.

Lemma obj_lookup_set_same k (v : A) o : obj_lookup k (obj_set k v o) = Some v.
Proof.
  induction o as [|[k' v'] o IH]; simpl.
  - now rewrite String.eqb_refl.
  - destruct (String.eqb k k') eqn:E; simpl; rewrite E; auto.
Qed.

Lemma obj_lookup_set_other k k' (v : A) o :
  k <> k' -> obj_lookup k (obj_set k' v o) = obj_lookup k o.
Proof.
  intros Hne. induction o as [|[k0 v0] o IH]; simpl.
  - destruct (String.eqb_spec k k'); [contradiction | reflexivity].
  - destruct (String.eqb_spec k' k0) as [->|Hne']; simpl.
    + destruct (String.eqb_spec k k0); [contradiction | reflexivity].
    + destruct (String.eqb k k0); auto.
Qed.

Lemma has_key_set k k' (v : A) o :
  has_key k (obj_set k' v o) = String.eqb k k' || has_key k o.
Proof.
  destruct (String.eqb_spec k k') as [->|Hne]; simpl.
  - now rewrite has_key_lookup, obj_lookup_set_same.
  - now rewrite !has_key_lookup, obj_lookup_set_other.
Qed.

(** Setting a new key puts it last. *)
Lemma obj_set_absent k (v : A) o :
  has_key k o = false -> obj_set k v o = o ++ [(k, v)].
Proof.
  induction o as [|[k' v'] o IH]; simpl; [reflexivity|].
  destruct (String.eqb k k') eqn:E; [discriminate|].
  intros H. now rewrite IH.
Qed.

Lemma distinct_cons k (l : list string) :
  distinct (k :: l) = true <-> ~ In k l /\ distinct l = true.
Proof.
  simpl. rewrite andb_true_iff, negb_true_iff. split.
  - intros [Hk Hl]. split; [|exact Hl]. intros Hin.
    assert (existsb (String.eqb k) l = true) as E.
    { apply existsb_exists. exists k. split; [exact Hin | apply String.eqb_refl]. }
    congruence.
  - intros [Hk Hl]. split; [|exact Hl].
    destruct (existsb (String.eqb k) l) eqn:E; [|reflexivity].
    apply existsb_exists in E. destruct E as [x [Hin Hx]].
    apply String.eqb_eq in Hx. subst x. contradiction.
Qed.

(** Assigning entries with distinct new keys appends them. *)
Lemma assign_fresh t s :
  distinct (keys s) = true ->
  (forall k, In k (keys s) -> has_key k t = false) ->
  assign t s = t ++ s.
Proof.
  unfold assign. revert t.
  induction s as [|[k v] s IH]; intros t Hd Hfresh; simpl.
  - now rewrite app_nil_r.
  - change (keys ((k, v) :: s)) with (k :: keys s) in Hd.
    apply distinct_cons in Hd. destruct Hd as [Hk Hd].
    rewrite obj_set_absent by (apply Hfresh; simpl; auto).
    rewrite IH; [now rewrite <- app_assoc | exact Hd|].
    intros k' Hin. rewrite has_key_lookup.
    destruct (obj_lookup k' (t ++ [(k, v)])) eqn:E; [|reflexivity].
    assert (has_key k' (t ++ [(k, v)]) = true) as H
      by (rewrite has_key_lookup, E; reflexivity).
    apply has_key_In in H. unfold keys in H. rewrite map_app in H.
    apply in_app_or in H. destruct H as [H|H].
    + apply has_key_In in H. rewrite Hfresh in H by (simpl; auto). discriminate.
    + simpl in H. destruct H as [<-|[]]. contradiction.
Qed.

(** [Object.fromEntries] of the entries of an object gives the object. *)
Lemma Object_fromEntries_distinct s :
  distinct (keys s) = true -> Object_fromEntries s = s.
Proof.
  intros Hd. unfold Object_fromEntries.
  rewrite assign_fresh; [reflexivity | exact Hd | reflexivity].
Qed.

(** A spread keeps the value of a key the source does not have. *)
Lemma obj_lookup_assign_other k t s :
  has_key k s = false -> obj_lookup k (assign t s) = obj_lookup k t.
Proof.
  unfold assign. revert t.
  induction s as [|[k' v] s IH]; intros t; simpl; [reflexivity|].
  destruct (String.eqb_spec k k') as [->|Hne]; [discriminate|].
  intros H. rewrite IH by exact H. now apply obj_lookup_set_other.
Qed.

Lemma has_key_assign k t s :
  has_key k (assign t s) = has_key k t || has_key k s.
Proof.
  unfold assign. revert t.
  induction s as [|[k' v] s IH]; intros t; simpl.
  - now rewrite orb_false_r.
  - rewrite IH, has_key_set. simpl.
    destruct (String.eqb k k'), (has_key k t), (has_key k s); reflexivity.
Qed.

(** A spread gives a key of the source, when the source's keys are
    distinct, the source's value. *)
Lemma obj_lookup_assign_source k t s :
  distinct (keys s) = true -> has_key k s = true ->
  obj_lookup k (assign t s) = obj_lookup k s.
Proof.
  unfold assign. revert t.
  induction s as [|[k' v] s IH]; intros t Hd; simpl; [discriminate|].
  change (keys ((k', v) :: s)) with (k' :: keys s) in Hd.
  apply distinct_cons in Hd. destruct Hd as [Hk Hd].
  destruct (String.eqb_spec k k') as [->|Hne]; intros H.
  - assert (has_key k' s = false) as Hno.
    { destruct (has_key k' s) eqn:E; [|reflexivity].
      apply has_key_In in E. contradiction. }
    change (obj_lookup k' (assign (obj_set k' v t) s) = Some v).
    rewrite obj_lookup_assign_other by exact Hno.
    apply obj_lookup_set_same.
  - now apply IH.
Qed.

End PropertyLists.

(* ------------------------------------------------------------------ *)
(** ** zod: what the unknown-keys policy means *)

Section ZodPolicy.
Import Zod ZodParse.

Lemma parse_object shape policy at_path props :
  parse (ZodObject shape policy) at_path (JObject props) =
  let fields := parse_fields at_path props shape in
  let extra := undeclared shape props in
  match policy with
  | strip => (fst fields, JObject (snd fields))
  | passthrough => (fst fields, JObject (snd fields ++ extra))
  | strict =>
      match extra with
      | [] => (fst fields, JObject (snd fields))
      | _ :: _ =>
          (fst fields ++ [mkIssue (unrecognized_keys (keys extra)) at_path],
           JObject (snd fields))
      end
  end.
Proof.
  simpl.
  assert ((fix fields (sh : list (string * ZodType)) : ZodError * JsObject :=
             match sh with
             | [] => ([], [])
             | (key, validator) :: rest =>
                 (fst (parse validator (at_path ++ [key]) (obj_get key props))
                    ++ fst (fields rest),
                  if has_key key props
                     || negb (is_undefined
                                (snd (parse validator (at_path ++ [key])
                                        (obj_get key props))))
                  then (key, snd (parse validator (at_path ++ [key])
                                    (obj_get key props))) :: snd (fields rest)
                  else snd (fields rest))
             end) shape = parse_fields at_path props shape) as ->.
  { induction shape as [|[key validator] rest IH]; [reflexivity|].
    simpl. now rewrite IH. }
  reflexivity.
Qed.

(** The fields look at the input only under the declared keys. *)
Lemma parse_fields_ext at_path props props' shape :
  (forall key, has_key key shape = true ->
               obj_lookup key props = obj_lookup key props') ->
  parse_fields at_path props shape = parse_fields at_path props' shape.
Proof.
  induction shape as [|[key validator] rest IH]; intros H; [reflexivity|].
  simpl. unfold obj_get. rewrite !has_key_lookup.
  rewrite <- (H key) by (simpl; now rewrite String.eqb_refl).
  rewrite IH; [reflexivity|].
  intros k Hk. apply H. simpl. rewrite Hk. now destruct (String.eqb k key).
Qed.

Lemma obj_lookup_app_other {A : Type} k k' (v : A) (o : list (string * A)) :
  k <> k' -> obj_lookup k (o ++ [(k', v)]) = obj_lookup k o.
Proof.
  intros Hne. induction o as [|[k0 v0] o IH]; simpl.
  - destruct (String.eqb_spec k k'); [contradiction | reflexivity].
  - destruct (String.eqb k k0); auto.
Qed.

(** A schema that is not strict gives the same verdict with or without an
    undeclared key. *)
Lemma lenient_ignores_undeclared shape policy at_path props k v :
  policy <> strict -> has_key k shape = false ->
  fst (parse (ZodObject shape policy) at_path (JObject (props ++ [(k, v)]))) =
  fst (parse (ZodObject shape policy) at_path (JObject props)).
Proof.
  intros Hpol Hk. rewrite !parse_object. cbv zeta.
  rewrite (parse_fields_ext at_path (props ++ [(k, v)]) props).
  - destruct policy; [reflexivity | contradiction | reflexivity].
  - intros key Hkey. apply obj_lookup_app_other. intros ->. congruence.
Qed.

(** A strict schema rejects an input with an undeclared key. *)
Lemma strict_rejects_undeclared shape props k :
  has_key k props = true -> has_key k shape = false ->
  exists error, safeParse (ZodObject shape strict) (JObject props) = ParseFailure error.
Proof.
  intros Hin Hout. unfold safeParse. rewrite parse_object. cbv zeta.
  assert (undeclared shape props <> []) as Hextra.
  { clear - Hin Hout. induction props as [|[k' v'] props IH]; [discriminate|].
    simpl in Hin. unfold undeclared. simpl.
    destruct (String.eqb_spec k k') as [E|Hne].
    - rewrite <- E, Hout. discriminate.
    - destruct (negb (has_key k' shape)); [discriminate | now apply IH]. }
  destruct (undeclared shape props) as [|e extra]; [contradiction|].
  destruct (fst (parse_fields [] props shape)) as [|i issues]; simpl; eauto.
Qed.

End ZodPolicy.

(* ------------------------------------------------------------------ *)
(** ** The schema validator and the schema merger *)

Section SchemaValidator.
Import Zod ZodParse ZodUtils Examples.

(** C8: when the schema is absent or is not a recognised validation schema
    object ([isZodObject] says no), [checkZodSchema] returns
    [{success: true, data}] with the data as given, whatever
    [passThroughExtraKeys] is. *)
Theorem checkZodSchema_without_schema data schema passThroughExtraKeys :
  isZodObject schema = false ->
  checkZodSchema data schema passThroughExtraKeys = Ok (Success data).
Proof.
  intros H. unfold checkZodSchema. now rewrite H.
Qed.

(** The four non-schemas of the test: [undefined], [null], [''] and
    [{ a: '123' }]. *)
Lemma checkZodSchema_without_schema_witness :
  checkZodSchema data_a JUndefined false = Ok (Success data_a) /\
  checkZodSchema data_a JNull true = Ok (Success data_a) /\
  checkZodSchema data_a (JString "") false = Ok (Success data_a) /\
  checkZodSchema data_a (JObject [("a", JString "123")]) true = Ok (Success data_a).
Proof.
  split; [|split; [|split]].
  - exact (checkZodSchema_without_schema data_a JUndefined false eq_refl).
  - exact (checkZodSchema_without_schema data_a JNull true eq_refl).
  - exact (checkZodSchema_without_schema data_a (JString "") false eq_refl).
  - exact (checkZodSchema_without_schema data_a
             (JObject [("a", JString "123")]) true eq_refl).
Defined.

(** With [passThroughExtraKeys], on an object: a key the schema returned
    has the validated value, any other key the value it came with. *)
Lemma checkZodSchema_passThrough_fields z props out k :
  safeParse z (JObject props) = ParseSuccess (JObject out) ->
  distinct (keys props) = true -> distinct (keys out) = true ->
  exists merged,
    checkZodSchema (JObject props) (JZod z) true = Ok (Success (JObject merged)) /\
    obj_lookup k merged
    = if has_key k out then obj_lookup k out else obj_lookup k props.
Proof.
  intros Hparse Hprops Hout. unfold checkZodSchema. simpl. rewrite Hparse.
  eexists. split; [reflexivity|]. simpl.
  change (assign [] props) with (Object_fromEntries props).
  rewrite Object_fromEntries_distinct by exact Hprops.
  destruct (has_key k out) eqn:E.
  - now apply obj_lookup_assign_source.
  - now apply obj_lookup_assign_other.
Qed.

(** The output of an object schema has declared keys only. *)
Lemma parse_fields_declared at_path props shape k :
  has_key k (snd (parse_fields at_path props shape)) = true ->
  has_key k shape = true.
Proof.
  induction shape as [|[key validator] rest IH]; [discriminate|].
  simpl.
  destruct (has_key key props
            || negb (is_undefined
                       (snd (parse validator (at_path ++ [key]) (obj_get key props)))));
    simpl; destruct (String.eqb k key); auto.
Qed.

(** C6: [{a:1,b:2}] against [z.object({a: z.number()})]: with
    [passThroughExtraKeys] the result is [{a:1,b:2}], the validated fields
    on top of the original object; without it, or with the option left out,
    the result is exactly [{a:1}].  In general, on an object that the
    schema accepts: with the option, each key has the validated value when
    the schema returned that key and otherwise the value it came with;
    without it the result is the validated value and nothing else, which
    for an object schema (that strips) has declared keys only. *)
Theorem checkZodSchema_passThroughExtraKeys :
  (checkZodSchema data_ab schema_a true = Ok (Success data_ab) /\
   checkZodSchema data_ab schema_a false = Ok (Success data_a) /\
   checkZodSchema_default data_ab schema_a = Ok (Success data_a)) /\
  (forall z props out k,
     safeParse z (JObject props) = ParseSuccess (JObject out) ->
     distinct (keys props) = true -> distinct (keys out) = true ->
     exists merged,
       checkZodSchema (JObject props) (JZod z) true
         = Ok (Success (JObject merged)) /\
       has_key k merged = has_key k props || has_key k out /\
       obj_lookup k merged
         = if has_key k out then obj_lookup k out else obj_lookup k props) /\
  (forall z data out,
     safeParse z data = ParseSuccess out ->
     checkZodSchema data (JZod z) false = Ok (Success out) /\
     checkZodSchema_default data (JZod z) = Ok (Success out)) /\
  (forall shape props out,
     checkZodSchema (JObject props) (JZod (ZodObject shape strip)) false
       = Ok (Success out) ->
     exists fields,
       out = JObject fields /\
       forall k, has_key k fields = true -> has_key k shape = true).
Proof.
  split; [repeat split|]. split; [|split].
  - intros z props out k Hparse Hprops Hout.
    unfold checkZodSchema. simpl. rewrite Hparse.
    eexists. split; [reflexivity|]. simpl.
    change (assign [] props) with (Object_fromEntries props).
    rewrite Object_fromEntries_distinct by exact Hprops.
    split; [apply has_key_assign|].
    destruct (has_key k out) eqn:E.
    + now apply obj_lookup_assign_source.
    + now apply obj_lookup_assign_other.
  - intros z data out Hparse. unfold checkZodSchema_default, checkZodSchema.
    simpl. now rewrite Hparse.
  - intros shape props out. unfold checkZodSchema, safeParse. simpl isZodObject.
    cbv iota. rewrite parse_object. cbv zeta. cbv iota.
    destruct (parse_fields [] props shape) as [issues fields] eqn:E.
    cbn [fst snd]. destruct issues as [|i issues]; [|discriminate].
    cbn [andb]. intros [= <-]. exists fields. split; [reflexivity|].
    intros k Hk. apply (parse_fields_declared [] props shape).
    now rewrite E.
Qed.

(** An input with a nested object: the validated value of [a] has lost
    [y], and with the option it is that value, not the original, which
    stands under [a], beside the original [b]. *)
Lemma checkZodSchema_passThroughExtraKeys_witness :
  safeParse MoreExamples.nested_schema MoreExamples.nested_data
    = ParseSuccess (JObject [("a", JObject [("x", JNumber 1)])]) /\
  exists merged,
    checkZodSchema MoreExamples.nested_data (JZod MoreExamples.nested_schema) true
      = Ok (Success (JObject merged)) /\
    obj_lookup "a" merged = Some (JObject [("x", JNumber 1)]) /\
    obj_lookup "b" merged = Some (JNumber 2).
Proof.
  split; [reflexivity|].
  destruct checkZodSchema_passThroughExtraKeys as [_ [Hmerge _]].
  destruct (Hmerge MoreExamples.nested_schema
              [("a", JObject [("x", JNumber 1); ("y", JNumber 2)]); ("b", JNumber 2)]
              [("a", JObject [("x", JNumber 1)])] "a" eq_refl eq_refl eq_refl)
    as [merged [Heq [_ Ha]]].
  destruct (Hmerge MoreExamples.nested_schema
              [("a", JObject [("x", JNumber 1); ("y", JNumber 2)]); ("b", JNumber 2)]
              [("a", JObject [("x", JNumber 1)])] "b" eq_refl eq_refl eq_refl)
    as [merged' [Heq' [_ Hb]]].
  exists merged. split; [exact Heq|]. split; [exact Ha|].
  unfold MoreExamples.nested_data in Heq, Heq'.
  rewrite Heq in Heq'. injection Heq' as <-. exact Hb.
Defined.

(** C4, as stated, fails: the strict base [{foo}] merged with the route's
    [{bar}] does not reject [{foo, bar, baz}]. *)
Lemma zodMerge_strict_base_accepts :
  ~ rejects (zodMerge (Some (foo_schema strict)) (Some (bar_schema strip)))
            foo_bar_baz.
Proof.
  intros [error H]. vm_compute in H. discriminate.
Qed.

(** C4, amended: the merged header schema rejects [{foo, bar, baz}] exactly
    when the route schema is strict; a strict base with a route schema that
    is not strict accepts it and returns exactly [{foo, bar}], as do two
    schemas that are not strict. *)
Theorem zodMerge_test_inputs :
  validate_with (zodMerge (Some (foo_schema strict)) (Some (bar_schema strip)))
    foo_bar_baz = ParseSuccess foo_bar /\
  validate_with (zodMerge (Some (foo_schema strip)) (Some (bar_schema strip)))
    foo_bar_baz = ParseSuccess foo_bar /\
  forall base_policy route_policy,
    rejects (zodMerge (Some (foo_schema base_policy))
                      (Some (bar_schema route_policy))) foo_bar_baz
    <-> route_policy = strict.
Proof.
  split; [reflexivity|]. split; [reflexivity|].
  intros base_policy route_policy. split.
  - intros [error H]. destruct base_policy, route_policy;
      solve [reflexivity | vm_compute in H; discriminate].
  - intros ->. destruct base_policy; eexists; vm_compute; reflexivity.
Qed.

(** C5, as stated, fails: the base accepts extra keys, the route schema is
    strict, and the merged schema is strict. *)
Lemma zodMerge_lenient_base_strict_route :
  ~ lenient_if_either (foo_schema strip) (bar_schema strict).
Proof.
  intros H.
  specialize (H (or_introl eq_refl) _ eq_refl). discriminate.
Qed.

(** C5, amended: for two object schemas A (base) and B (route) the merged
    schema has B's unknown-keys policy: it rejects every input with an
    undeclared key when B is strict, and gives the same verdict with or
    without an undeclared key when B is not.  A field declared by B has
    B's validator, any other field A's. *)
Theorem zodMerge_route_policy sa ua sb ub k :
  distinct (keys sb) = true ->
  exists merged,
    zodMerge (Some (ZodObject sa ua)) (Some (ZodObject sb ub))
      = Some (ZodObject merged ub) /\
    obj_lookup k merged
      = (if has_key k sb then obj_lookup k sb else obj_lookup k sa) /\
    has_key k merged = has_key k sa || has_key k sb /\
    (ub = strict ->
     forall props x, has_key x props = true -> has_key x merged = false ->
       rejects (Some (ZodObject merged ub)) (JObject props)) /\
    (ub <> strict ->
     forall props x v, has_key x merged = false ->
       fst (parse (ZodObject merged ub) [] (JObject (props ++ [(x, v)])))
       = fst (parse (ZodObject merged ub) [] (JObject props))).
Proof.
  intros Hd. exists (assign sa sb). split; [reflexivity|].
  split.
  { destruct (has_key k sb) eqn:E.
    - now apply obj_lookup_assign_source.
    - now apply obj_lookup_assign_other. }
  split; [apply has_key_assign|]. split.
  - intros -> props x Hx Hm. now apply (strict_rejects_undeclared _ props x).
  - intros Hpol props x v Hm. now apply lenient_ignores_undeclared.
Qed.

Lemma zodMerge_route_policy_witness :
  distinct (keys [("bar", ZodString)]) = true /\
  exists merged,
    zodMerge (Some (foo_schema strip)) (Some (bar_schema strict))
      = Some (ZodObject merged strict) /\
    obj_lookup "bar" merged = Some ZodString.
Proof.
  split; [reflexivity|].
  destruct (zodMerge_route_policy [("foo", ZodString)] strip
              [("bar", ZodString)] strict "bar" eq_refl)
    as [merged [Hm [Hk _]]].
  exists merged. split; [exact Hm | exact Hk].
Defined.

End SchemaValidator.

(* ------------------------------------------------------------------ *)
(** ** Route matching and dispatch *)

Section Dispatch.
Import Next Examples.

(** The loop of [isRouteCorrect] keeps its flag only if no index clears it. *)
Lemma flag_loop (bad : nat -> bool) (l : list nat) (init : bool) :
  fold_left (fun matches i => if bad i then false else matches) l init
  = init && forallb (fun i => negb (bad i)) l.
Proof.
  revert init. induction l as [|i l IH]; intros init; simpl.
  - now rewrite andb_true_r.
  - rewrite IH. destruct (bad i), init; reflexivity.
Qed.

Lemma isRouteCorrect_route_matches route query method :
  isRouteCorrect route query method = true <-> route_matches route query method.
Proof.
  unfold isRouteCorrect, route_matches.
  set (pathAsArray := segments (path route)).
  destruct (Nat.eqb_spec (length pathAsArray) (length query)) as [Hlen|Hlen];
    [|simpl; split; [discriminate | tauto]].
  destruct (String.eqb_spec (method_name (Next.method route)) method) as [Hm|Hm];
    [|simpl; split; [discriminate | tauto]].
  simpl.
  rewrite (flag_loop
             (fun i => negb (startsWith ":" (nth i pathAsArray ""))
                       && negb (String.eqb (nth i pathAsArray "") (nth i query "")))).
  simpl. rewrite forallb_forall. split.
  - intros H. split; [exact Hm|]. split; [exact Hlen|].
    intros i template actual Ht Ha Hw.
    assert (i < length pathAsArray)%nat as Hi
      by (apply nth_error_Some; congruence).
    specialize (H i). rewrite in_seq in H. specialize (H (conj (Nat.le_0_l i) Hi)).
    rewrite (nth_error_nth _ _ "" Ht), (nth_error_nth _ _ "" Ha), Hw in H.
    simpl in H. apply negb_true_iff, negb_false_iff in H.
    now apply String.eqb_eq.
  - intros [_ [_ H]] i Hi. apply in_seq in Hi. destruct Hi as [_ Hi]. simpl in Hi.
    destruct (startsWith ":" (nth i pathAsArray "")) eqn:Hw; [reflexivity|].
    simpl. apply negb_true_iff, negb_false_iff, String.eqb_eq.
    apply (H i); [| |exact Hw].
    + now apply nth_error_nth'.
    + apply nth_error_nth'. now rewrite <- Hlen.
Qed.

(** Induction on a tree of routes and routers. *)
Lemma Node_induction (P : Node -> Prop) :
  (forall r, P (RouteNode r)) ->
  (forall children, Forall (fun kc => P (snd kc)) children ->
                    P (RouterNode children)) ->
  forall n, P n.
Proof.
  intros Hroute Hrouter.
  fix IH 1. intros [r|children]; [apply Hroute|].
  apply Hrouter. induction children as [|[k c] rest IHrest]; constructor.
  - apply IH.
  - exact IHrest.
Qed.

Lemma find_append {A : Type} (f : A -> bool) (l1 l2 : list A) :
  find f (l1 ++ l2)
  = match find f l1 with Some x => Some x | None => find f l2 end.
Proof.
  induction l1 as [|x l1 IH]; simpl; [reflexivity|].
  now destruct (f x).
Qed.

(** On a tree where no router is mistaken for a route, one step of the
    search returns the first route of the subtree that [isRouteCorrect]
    accepts. *)
Lemma visit_first_match query method n :
  plain_node n = true ->
  visit query method n
  = Ok (find (fun r => isRouteCorrect (route r) query method) (leaves_node n)).
Proof.
  induction n as [r|children IH] using Node_induction; intros Hplain.
  - simpl. now destruct (isRouteCorrect (route r) query method).
  - simpl in Hplain. apply andb_true_iff in Hplain. destruct Hplain as [Hno Hall].
    apply negb_true_iff in Hno.
    cbn [visit]. cbn [isAppRouteWithImplementation]. rewrite Hno.
    cbn [leaves_node]. clear Hno.
    induction children as [|[k c] rest IHrest]; [reflexivity|].
    inversion IH as [|? ? Hc Hrest]; subst. simpl in Hc.
    apply andb_true_iff in Hall. destruct Hall as [Hpc Hprest].
    rewrite (Hc Hpc). simpl. rewrite find_append.
    destruct (find _ (leaves_node c)); [reflexivity|].
    apply IHrest; assumption.
Qed.

Lemma getRouteImplementation_first_match router query method :
  plain router = true ->
  getRouteImplementation router query method
  = Ok (find (fun r => isRouteCorrect (route r) query method) (leaves router)).
Proof.
  induction router as [|[k c] rest IH]; intros Hplain; [reflexivity|].
  simpl in Hplain. apply andb_true_iff in Hplain. destruct Hplain as [Hc Hrest].
  simpl. rewrite (visit_first_match _ _ _ Hc). simpl. rewrite find_append.
  destruct (find _ (leaves_node c)); [reflexivity|].
  now apply IH.
Qed.



End Dispatch.

(* ------------------------------------------------------------------ *)
(** ** Request validation in the handler *)

Section RequestValidation.
Import ZodParse ZodUtils Next Examples.

Variable checkStandardSchema : JsValue -> JsValue -> bool -> StandardResult.
Variable parseJsonQueryObject : JsValue -> JsValue.
Variable validateResponse : AppRoute -> Z -> JsValue -> Thrown + JsValue.
Variable isAppRouteNoBody : JsValue -> bool.
Variable isAppRouteOtherResponse : JsValue -> bool.

(** With a failed validation the [try] block ends before the
    implementation is called. *)
Lemma tryBlock_on_failure options r v req call :
  first_failure v = Some call ->
  tryBlock validateResponse isAppRouteNoBody isAppRouteOtherResponse
    options r v req
  = if option_flag options throwRequestValidation
    then Threw [] (aggregated v)
    else Completed [call].
Proof.
  unfold first_failure, tryBlock, aggregated.
  destruct (result_error (pathParamsResult v)) as [pe|];
    [intros [= <-]; reflexivity|].
  destruct (result_error (headersResult v)) as [he|];
    [intros [= <-]; reflexivity|].
  destruct (result_error (queryResult v)) as [qe|];
    [intros [= <-]; reflexivity|].
  destruct (result_error (bodyResult v)) as [be|];
    [intros [= <-]; reflexivity | discriminate].
Qed.

(** C2, amended: the four validations are all evaluated before the handler
    looks at any of them.  When one fails and throw mode is off, the 400
    response carries the error of the first category that failed, in the
    order path params, headers, query, body, and no other.  In throw mode
    one error with the results of all four is raised, and goes to the
    error handler when one is configured. *)
Theorem request_validation_failure getArgumentsFromRequest options req r call :
  args_route (getArgumentsFromRequest req) = Some r ->
  first_failure
    (validate checkStandardSchema parseJsonQueryObject options
       (getArgumentsFromRequest req) (route r) req) = Some call ->
  handlerFactory checkStandardSchema parseJsonQueryObject validateResponse
    isAppRouteNoBody isAppRouteOtherResponse getArgumentsFromRequest options req
  = let v := validate checkStandardSchema parseJsonQueryObject options
               (getArgumentsFromRequest req) (route r) req in
    if option_flag options throwRequestValidation
    then match configured_errorHandler options with
         | Some errorHandler => Completed (errorHandler (aggregated v) req)
         | None => Threw [] (aggregated v)
         end
    else Completed [call].
Proof.
  intros Hroute Hfail. unfold handlerFactory. rewrite Hroute.
  rewrite (tryBlock_on_failure _ _ _ _ _ Hfail). cbv zeta.
  destruct (option_flag options throwRequestValidation); [|reflexivity].
  unfold configured_errorHandler.
  destruct options as [o|]; [|reflexivity].
  now destruct (errorHandler o).
Qed.

End RequestValidation.

Section RequestValidationExamples.
Import ZodParse ZodUtils Next Examples.

Lemma request_validation_failure_witness :
  createSingleRouteHandler zodChecker identityQuery noValidation noBody noBody
    route_createPost echo_query None empty_post
  = Completed [status_send 400 (PError missing_authorization)].
Proof.
  exact (request_validation_failure zodChecker identityQuery noValidation
           noBody noBody
           (singleRouteArguments route_createPost echo_query)
           None empty_post (mkImpl route_createPost echo_query)
           (status_send 400 (PError missing_authorization))
           eq_refl eq_refl).
Defined.

(** C2, as stated, fails: a POST with neither the header nor the body field
    fails two validations, and the 400 response carries the header error
    only. *)
Lemma first_category_only :
  result_error (headersResult createPost_validations) = Some missing_authorization /\
  result_error (bodyResult createPost_validations) = Some missing_title /\
  ~ reports_all_errors (createPost_handler empty_post) createPost_validations.
Proof.
  split; [reflexivity|]. split; [reflexivity|].
  intros H. specialize (H missing_title).
  destruct H as [code [H|H]].
  - simpl. auto.
  - vm_compute in H. destruct H as [H|[]]. discriminate.
  - vm_compute in H. destruct H as [H|[]]. discriminate.
Qed.

(** C10: the single-route handler takes the keys that name a bound path
    parameter out of the query, but with [jsonQuery] off the handler
    validates [req.query] itself: [id] of the query string reaches the
    validation and the implementation. *)
Theorem single_route_query_shadowing :
  args_pathParams (singleRouteArguments route_getPost echo_query shadowed_request)
    = [("id", JString "3")] /\
  args_query (singleRouteArguments route_getPost echo_query shadowed_request)
    = JObject [("keep", JString "1")] /\
  (forall parseJsonQueryObject,
     queryToValidate parseJsonQueryObject None
       (singleRouteArguments route_getPost echo_query shadowed_request)
       shadowed_request
     = JObject [("id", JString "9"); ("keep", JString "1")]) /\
  createSingleRouteHandler zodChecker identityQuery noValidation noBody noBody
    route_getPost echo_query None shadowed_request
  = Completed [status_json 200
                 (PValue (JObject [("id", JString "9"); ("keep", JString "1")]))].
Proof.
  repeat split.
Qed.

End RequestValidationExamples.

(* ------------------------------------------------------------------ *)
(** ** The query of the single-route handler *)

Section SingleRouteQuery.
Import Next.

Lemma keys_filter_In {A : Type} (f : string * A -> bool) k (o : list (string * A)) :
  In k (keys (filter f o)) -> In k (keys o).
Proof.
  induction o as [|[k' v] o IH]; simpl; [tauto|].
  destruct (f (k', v)); simpl; tauto.
Qed.

Lemma distinct_filter {A : Type} (f : string * A -> bool) (o : list (string * A)) :
  distinct (keys o) = true -> distinct (keys (filter f o)) = true.
Proof.
  induction o as [|[k v] o IH]; [reflexivity|].
  change (keys ((k, v) :: o)) with (k :: keys o).
  intros H. apply distinct_cons in H. destruct H as [Hk Hd].
  simpl. destruct (f (k, v)); [|auto].
  change (keys ((k, v) :: filter f o)) with (k :: keys (filter f o)).
  apply distinct_cons. split; [|auto].
  intros Hin. apply Hk. now apply keys_filter_In in Hin.
Qed.

(** What [createSingleRouteHandler] computes as the query: the entries of
    [req.query] whose key is not a bound path parameter. *)
Lemma singleRouteArguments_query appRoute implementationHandler req props :
  req_query req = JObject props -> distinct (keys props) = true ->
  args_query (singleRouteArguments appRoute implementationHandler req)
  = JObject
      (filter
         (fun entry =>
            is_undefined
              (obj_get (fst entry)
                 (getPathParamsFromArray (slice1 (split "/" (req_url req)))
                    appRoute)))
         props).
Proof.
  intros Hq Hd. unfold singleRouteArguments. rewrite Hq. simpl.
  rewrite Object_fromEntries_distinct; [reflexivity|].
  now apply distinct_filter.
Qed.

(** What the handler validates as the query: the computed query only in
    [jsonQuery] mode, and otherwise [req.query] as it came. *)
Lemma queryToValidate_cases parseJsonQueryObject options args req :
  queryToValidate parseJsonQueryObject options args req
  = if option_flag options jsonQuery
    then parseJsonQueryObject (args_query args)
    else req_query req.
Proof. reflexivity. Qed.

End SingleRouteQuery.

(* ------------------------------------------------------------------ *)
(** ** Request validation in the Express adapter *)

Section ExpressValidation.
Import ZodParse ZodUtils Express.

(** [validateRequest] answers 400 at the first validation that fails and
    does not run the ones after it. *)
Lemma validateRequest_stops_at_params parseJsonQueryObject req schema options error :
  checkZodSchema (params req) (Next.pathParams schema) true = Ok (Failure error) ->
  validateRequest parseJsonQueryObject req schema options = Ok (Sent400 error).
Proof.
  intros H. unfold validateRequest. now rewrite H.
Qed.

Lemma validateRequest_stops_at_headers parseJsonQueryObject req schema options
  paramsData error :
  checkZodSchema (params req) (Next.pathParams schema) true = Ok (Success paramsData) ->
  checkZodSchema (headers req) (Next.headers schema) true = Ok (Failure error) ->
  validateRequest parseJsonQueryObject req schema options = Ok (Sent400 error).
Proof.
  intros H1 H2. unfold validateRequest. rewrite H1. simpl. now rewrite H2.
Qed.

End ExpressValidation.

(* ------------------------------------------------------------------ *)
(** ** The contract builder *)

Section ContractBuilder.
Import Dsl Examples.

Variable zodMerge : JsValue -> JsValue -> JsValue.
Variable options : JsValue.

Lemma JsValue_induction (P : JsValue -> Prop) :
  P JUndefined -> P JNull -> (forall b, P (JBool b)) ->
  (forall n, P (JNumber n)) -> (forall s, P (JString s)) ->
  (forall items, Forall P items -> P (JArray items)) ->
  (forall props, Forall (fun kv => P (snd kv)) props -> P (JObject props)) ->
  (forall z, P (JZod z)) ->
  forall v, P v.
Proof.
  intros Hu Hn Hb Hz Hs Ha Ho Hzod.
  fix IH 1. intros [| |b|n|s|items|props|z].
  - exact Hu.
  - exact Hn.
  - apply Hb.
  - apply Hz.
  - apply Hs.
  - apply Ha. induction items as [|x rest IHrest]; constructor.
    + apply IH.
    + exact IHrest.
  - apply Ho. induction props as [|[k x] rest IHrest]; constructor.
    + apply IH.
    + exact IHrest.
  - apply Hzod.
Qed.

Lemma applied_object props :
  applied zodMerge options (JObject props) = JObject (map (apply_child zodMerge options) props).
Proof.
  cbn [applied]. f_equal.
  induction props as [|[k v] rest IH]; [reflexivity|].
  rewrite IH. reflexivity.
Qed.

Lemma wf_value_object props :
  wf_value (JObject props)
  = distinct (keys props) && forallb (fun kv => wf_value (snd kv)) props.
Proof.
  cbn [wf_value]. f_equal.
  induction props as [|[k v] rest IH]; [reflexivity|].
  rewrite IH. reflexivity.
Qed.

Lemma is_router_object props :
  is_router (JObject props)
  = forallb (fun kv => is_route (snd kv) || is_router (snd kv)) props.
Proof.
  cbn [is_router].
  induction props as [|[k v] rest IH]; [reflexivity|].
  rewrite IH. reflexivity.
Qed.

Lemma keys_apply_child props : keys (map (apply_child zodMerge options) props) = keys props.
Proof.
  unfold keys. rewrite map_map. reflexivity.
Qed.

Lemma obj_lookup_apply_child key props :
  obj_lookup key (map (apply_child zodMerge options) props)
  = option_map (fun v => snd (apply_child zodMerge options (key, v))) (obj_lookup key props).
Proof.
  induction props as [|[k v] rest IH]; [reflexivity|].
  simpl. destruct (String.eqb key k); [reflexivity | exact IH].
Qed.

Lemma has_key_keys {A B : Type} k (o : list (string * A)) (o' : list (string * B)) :
  keys o = keys o' -> has_key k o = has_key k o'.
Proof.
  revert o'. induction o as [|[k1 v1] o IH]; intros [|[k2 v2] o'] H;
    try discriminate; [reflexivity|].
  injection H as -> H. simpl. now rewrite (IH o' H).
Qed.

(** A route with distinct keys, after the builder: the same properties
    with [headers] set. *)
Lemma applyOptions_route leaf :
  distinct (keys leaf) = true ->
  applyOptions zodMerge (JObject leaf) options
  = JObject (obj_set "headers" (merged_headers zodMerge options leaf) leaf).
Proof.
  intros Hd. unfold applyOptions, merged_headers. simpl.
  change (assign [] leaf) with (Object_fromEntries leaf).
  now rewrite Object_fromEntries_distinct.
Qed.

(** On a contract the builder does not throw, and returns the map. *)
Lemma recursivelyApplyOptions_applied router :
  wf_value router = true -> is_router router = true ->
  recursivelyApplyOptions zodMerge router options
  = Ok (applied zodMerge options router).
Proof.
  induction router as [| | | | | |props IH|] using JsValue_induction;
    try discriminate.
  intros Hwf Hrouter. rewrite applied_object.
  rewrite wf_value_object in Hwf. apply andb_true_iff in Hwf.
  destruct Hwf as [Hd Hwf]. rewrite is_router_object in Hrouter.
  cbn [recursivelyApplyOptions].
  assert (map_entries
            (fun value =>
               applyEntry zodMerge options value
                 (recursivelyApplyOptions zodMerge value options)) props
          = Ok (map (apply_child zodMerge options) props)) as ->.
  { clear Hd. induction props as [|[k v] rest IHrest]; [reflexivity|].
    inversion IH as [|? ? Hv Hrest]; subst. simpl in Hv.
    simpl in Hwf, Hrouter.
    apply andb_true_iff in Hwf. destruct Hwf as [Hwv Hwrest].
    apply andb_true_iff in Hrouter. destruct Hrouter as [Hrv Hrrest].
    cbn [map_entries]. fold (@map_entries JsValue JsValue).
    rewrite (IHrest Hrest Hwrest Hrrest).
    cbn [map]. unfold apply_child. cbn [fst snd].
    destruct (is_route v) eqn:Eroute.
    - destruct v; try discriminate. unfold applyEntry.
      cbn [isAppRoute bindExc]. cbn [is_route] in Eroute. rewrite Eroute.
      reflexivity.
    - cbn [orb] in Hrv. destruct v; try discriminate.
      unfold applyEntry.
      cbn [isAppRoute bindExc]. cbn [is_route] in Eroute. rewrite Eroute.
      rewrite (Hv Hwv Hrv). reflexivity. }
  unfold apply_child.
  simpl. rewrite Object_fromEntries_distinct; [reflexivity|].
  now rewrite keys_apply_child.
Qed.

(** The routes of the built contract are the routes of the given one,
    each with [headers] set. *)
Lemma route_at_applied p : forall router,
  wf_value router = true -> is_router router = true ->
  route_at (applied zodMerge options router) p
  = option_map
      (fun leaf => obj_set "headers" (merged_headers zodMerge options leaf) leaf)
      (route_at router p).
Proof.
  induction p as [|key p' IH]; intros router Hwf Hrouter.
  - destruct router; reflexivity.
  - destruct router as [| | | | | |props|]; try discriminate.
    rewrite applied_object. cbn [route_at].
    rewrite obj_lookup_apply_child.
    rewrite wf_value_object in Hwf. apply andb_true_iff in Hwf.
    destruct Hwf as [_ Hwf]. rewrite is_router_object in Hrouter.
    rewrite forallb_forall in Hwf, Hrouter.
    destruct (obj_lookup key props) as [child|] eqn:Elook; [|reflexivity].
    assert (In (key, child) props) as Hin.
    { clear - Elook. induction props as [|[k v] rest IHrest]; [discriminate|].
      simpl in Elook. destruct (String.eqb_spec key k) as [->|Hne].
      - injection Elook as ->. now left.
      - right. auto. }
    specialize (Hwf _ Hin). specialize (Hrouter _ Hin). simpl in Hwf, Hrouter.
    cbn [option_map apply_child fst snd].
    destruct (is_route child) eqn:Eroute.
    + destruct child as [| | | | | |leaf|]; try discriminate.
      rewrite wf_value_object in Hwf. apply andb_true_iff in Hwf.
      destruct Hwf as [Hd _].
      rewrite (applyOptions_route leaf Hd).
      assert (is_route
                (JObject (obj_set "headers" (merged_headers zodMerge options leaf) leaf))
              = true) as ->.
      { simpl in *. rewrite !has_key_set. simpl. exact Eroute. }
      rewrite Eroute. now destruct p'.
    + simpl in Hrouter. destruct child as [| | | | | |cprops|]; try discriminate.
      rewrite applied_object.
      assert (is_route (JObject (map (apply_child zodMerge options) cprops)) = false) as ->.
      { simpl in *.
        rewrite (has_key_keys "method" _ cprops (keys_apply_child cprops)).
        rewrite (has_key_keys "path" _ cprops (keys_apply_child cprops)).
        exact Eroute. }
      rewrite Eroute, <- applied_object. now apply IH.
Qed.

End ContractBuilder.

Section ContractBuilderClaims.
Import Dsl Examples.

(** C9: on every contract the builder returns a contract with the same
    routes at the same places; each route has every field other than
    [headers] as it was given (method, path, responses, body, query,
    pathParams, strictStatusCodes, metadata and any other), and [headers]
    is the merge of the options' [baseHeaders] with the route's own
    headers. *)
Theorem options_touch_headers_only zodMerge router options :
  wf_value router = true -> is_router router = true ->
  exists built,
    recursivelyApplyOptions zodMerge router options = Ok built /\
    forall p,
      match route_at router p with
      | Some leaf =>
          exists leaf',
            route_at built p = Some leaf' /\
            obj_get "headers" leaf'
              = zodMerge (opt_get "baseHeaders" options) (obj_get "headers" leaf) /\
            forall field, field <> "headers" ->
                          obj_lookup field leaf' = obj_lookup field leaf
      | None => route_at built p = None
      end.
Proof.
  intros Hwf Hrouter. exists (applied zodMerge options router).
  split; [now apply recursivelyApplyOptions_applied|].
  intros p. rewrite (route_at_applied zodMerge options p router Hwf Hrouter).
  destruct (route_at router p) as [leaf|]; [|reflexivity].
  eexists. split; [reflexivity|]. split.
  - unfold obj_get at 1. now rewrite obj_lookup_set_same.
  - intros field Hfield. now apply obj_lookup_set_other.
Qed.

Lemma options_touch_headers_only_witness :
  exists built,
    recursivelyApplyOptions (fun base own => own)
      (JObject [("posts", JObject [("getPost", getPost_strict true)])])
      (JObject [("strictStatusCodes", JBool false)]) = Ok built.
Proof.
  destruct (options_touch_headers_only (fun base own => own)
              (JObject [("posts", JObject [("getPost", getPost_strict true)])])
              (JObject [("strictStatusCodes", JBool false)])
              eq_refl eq_refl) as [built [H _]].
  exists built. exact H.
Defined.

(** C3: the builder ignores [pathPrefix].  The contracts of the test, one
    built with [/posts] and nested in one built with [/v1], both keep the
    route's own path [/:id]; the test expects [/posts/:id] and
    [/v1/posts/:id]. *)
Theorem pathPrefix_is_ignored zodMerge :
  exists postsContractNested postsContract,
    router zodMerge (JObject [("getPost", getPost_route)])
      (JObject [("pathPrefix", JString "/posts")]) = Ok postsContractNested /\
    router zodMerge (JObject [("posts", postsContractNested)])
      (JObject [("pathPrefix", JString "/v1")]) = Ok postsContract /\
    get_in ["getPost"; "path"] postsContractNested = JString "/:id" /\
    get_in ["posts"; "getPost"; "path"] postsContract = JString "/:id".
Proof.
  eexists. eexists. split; [reflexivity|]. split; [reflexivity|].
  split; reflexivity.
Qed.

(** C7: the builder ignores the router-level [strictStatusCodes].  A route
    that sets the flag keeps it, whatever the option is; a route that does
    not set it has none after the build, where the test expects the
    option's value. *)
Theorem strictStatusCodes_option_is_ignored zodMerge :
  (forall own default,
     exists contract,
       router zodMerge (JObject [("getPost", getPost_strict own)])
         (JObject [("strictStatusCodes", JBool default)]) = Ok contract /\
       get_in ["getPost"; "strictStatusCodes"] contract = JBool own) /\
  (forall default,
     exists contract,
       router zodMerge (JObject [("getPost", getPost_plain)])
         (JObject [("strictStatusCodes", JBool default)]) = Ok contract /\
       get_in ["getPost"; "strictStatusCodes"] contract = JUndefined).
Proof.
  split; intros; eexists; split; reflexivity.
Qed.

End ContractBuilderClaims.

(* ================================================================== *)
(** * Further properties of the code *)

(* ------------------------------------------------------------------ *)
(** ** Route matching *)

Section RouteMatching.
Import Next.

Lemma nth_error_pointwise {A : Type} (l l' : list A) :
  length l = length l' ->
  (forall i x y, nth_error l i = Some x -> nth_error l' i = Some y -> x = y) ->
  l = l'.
Proof.
  revert l'. induction l as [|x l IH]; intros [|y l'] Hlen H;
    try discriminate; [reflexivity|].
  f_equal.
  - exact (H 0%nat x y eq_refl eq_refl).
  - apply IH; [now injection Hlen|].
    intros i a b Ha Hb. exact (H (S i) a b Ha Hb).
Qed.

(** A template without parameters is matched by its own segments and by
    nothing else. *)
Theorem isRouteCorrect_literal_template route query method :
  forallb (fun t => negb (startsWith ":" t)) (segments (path route)) = true ->
  isRouteCorrect route query method = true
  <-> method_name (Next.method route) = method /\ query = segments (path route).
Proof.
  intros Hlit. rewrite isRouteCorrect_route_matches. unfold route_matches.
  rewrite forallb_forall in Hlit. split.
  - intros [Hm [Hlen H]]. split; [exact Hm|]. symmetry.
    apply nth_error_pointwise; [exact Hlen|].
    intros i t q Ht Hq. apply (H i t q Ht Hq).
    apply negb_true_iff, Hlit. now apply nth_error_In in Ht.
  - intros [Hm ->]. split; [exact Hm|]. split; [reflexivity|].
    intros i t q Ht Hq _. congruence.
Qed.

Lemma isRouteCorrect_literal_template_witness :
  isRouteCorrect (mkRoute GET "/test-query" JUndefined JUndefined JUndefined
                    JUndefined []) ["test-query"] "GET" = true
  <-> "GET" = "GET" /\ ["test-query"] = ["test-query"].
Proof.
  exact (isRouteCorrect_literal_template
           (mkRoute GET "/test-query" JUndefined JUndefined JUndefined
              JUndefined []) ["test-query"] "GET" eq_refl).
Defined.

(** The request segments at the parameter places play no part in the
    match. *)
Theorem isRouteCorrect_parameter_values route query query' method :
  length query = length query' ->
  (forall i template,
     nth_error (segments (path route)) i = Some template ->
     startsWith ":" template = false ->
     nth_error query i = nth_error query' i) ->
  isRouteCorrect route query method = isRouteCorrect route query' method.
Proof.
  intros Hlen Hsame.
  assert (forall q q', length q = length q' ->
            (forall i template,
               nth_error (segments (path route)) i = Some template ->
               startsWith ":" template = false ->
               nth_error q i = nth_error q' i) ->
            isRouteCorrect route q method = true ->
            isRouteCorrect route q' method = true) as Himp.
  { intros q q' Hl Hs H. apply isRouteCorrect_route_matches in H.
    apply isRouteCorrect_route_matches. destruct H as [Hm [Hlq H]].
    split; [exact Hm|]. split; [congruence|].
    intros i t a Ht Ha Hw. apply (H i t a Ht); [|exact Hw].
    now rewrite (Hs i t Ht Hw). }
  destruct (isRouteCorrect route query method) eqn:E.
  - symmetry. now apply (Himp query query').
  - destruct (isRouteCorrect route query' method) eqn:E'; [|reflexivity].
    assert (isRouteCorrect route query method = true) as H; [|congruence].
    apply (Himp query' query); [congruence| |exact E'].
    intros i t Ht Hw. symmetry. now apply (Hsame i t).
Qed.

Lemma isRouteCorrect_parameter_values_witness :
  isRouteCorrect (mkRoute GET "/test/:id" JUndefined JUndefined JUndefined
                    JUndefined []) ["test"; "3"] "GET"
  = isRouteCorrect (mkRoute GET "/test/:id" JUndefined JUndefined JUndefined
                      JUndefined []) ["test"; ""] "GET".
Proof.
  apply isRouteCorrect_parameter_values; [reflexivity|].
  intros [|[|i]] template Ht Hw.
  - reflexivity.
  - injection Ht as <-. discriminate.
  - destruct i; discriminate.
Defined.

End RouteMatching.

(* ------------------------------------------------------------------ *)
(** ** The Next.js handler *)

Section NextHandlerProperties.
Import Next NextHandler Examples MoreExamples.

Variable checkStandardSchema : JsValue -> JsValue -> bool -> StandardResult.
Variable parseJsonQueryObject : JsValue -> JsValue.
Variable validateResponse : AppRoute -> Z -> JsValue -> Thrown + JsValue.
Variable isAppRouteNoBody : JsValue -> bool.
Variable isAppRouteOtherResponse : JsValue -> bool.

(** A request that the route does not match is answered 404 with no body,
    before anything is validated and whatever the options are. *)
Theorem single_route_not_found appRoute implementationHandler options req :
  ~ route_matches appRoute (slice1 (split "/" (req_url req))) (req_method req) ->
  createSingleRouteHandler checkStandardSchema parseJsonQueryObject
    validateResponse isAppRouteNoBody isAppRouteOtherResponse
    appRoute implementationHandler options req
  = Completed [status_end 404].
Proof.
  intros Hno. unfold createSingleRouteHandler, handlerFactory, singleRouteArguments.
  cbn [args_route].
  destruct (isRouteCorrect appRoute (slice1 (split "/" (req_url req)))
              (req_method req)) eqn:E; [|reflexivity].
  apply isRouteCorrect_route_matches in E. contradiction.
Qed.

(** An implementation that throws a [TsRestResponseError] is answered as
    if it had returned that status and body. *)
Theorem response_error_is_a_response getArgumentsFromRequest options req :
  handlerFactory checkStandardSchema parseJsonQueryObject validateResponse
    isAppRouteNoBody isAppRouteOtherResponse
    (returning getArgumentsFromRequest) options req
  = handlerFactory checkStandardSchema parseJsonQueryObject validateResponse
      isAppRouteNoBody isAppRouteOtherResponse
      getArgumentsFromRequest options req.
Proof.
  unfold handlerFactory, returning. cbn [args_route].
  destruct (args_route (getArgumentsFromRequest req)) as [r|]; [|reflexivity].
  cbn [option_map route].
  change (validate checkStandardSchema parseJsonQueryObject options
            (mkArguments (args_pathParams (getArgumentsFromRequest req))
               (args_query (getArgumentsFromRequest req))
               (Some (mkImpl (route r)
                        (fun a => as_response (implementation r a)))))
            (route r) req)
    with (validate checkStandardSchema parseJsonQueryObject options
            (getArgumentsFromRequest req) (route r) req).
  set (v := validate checkStandardSchema parseJsonQueryObject options
              (getArgumentsFromRequest req) (route r) req).
  assert (forall r', route r' = route r ->
            (forall a, as_response (implementation r' a)
                       = as_response (implementation r a)) ->
            respond validateResponse isAppRouteNoBody isAppRouteOtherResponse
              options r' v req
            = respond validateResponse isAppRouteNoBody isAppRouteOtherResponse
                options r v req) as Hrespond.
  { intros r' Hroute Himpl. unfold respond. rewrite Hroute.
    specialize (Himpl (mkArgs (result_value (bodyResult v))
                         (result_value (queryResult v))
                         (result_value (pathParamsResult v))
                         (result_value (headersResult v)) req)).
    destruct (implementation r' _) as [s b|[? ? ? ?|s b|e]];
      destruct (implementation r _) as [s' b'|[? ? ? ?|s' b'|e']];
      simpl in Himpl; inversion Himpl; subst; reflexivity. }
  unfold tryBlock.
  rewrite Hrespond; [reflexivity | reflexivity|].
  intros a. cbn [implementation]. now destruct (implementation r a) as [|[]].
Qed.

(** An exception of the implementation that is not a [TsRestResponseError]
    goes to the configured error handler, or out of the handler; the
    handler itself sends nothing. *)
Theorem implementation_error_is_surfaced getArgumentsFromRequest options req r e :
  args_route (getArgumentsFromRequest req) = Some r ->
  first_failure
    (validate checkStandardSchema parseJsonQueryObject options
       (getArgumentsFromRequest req) (route r) req) = None ->
  implementation r
    (implementation_arguments
       (validate checkStandardSchema parseJsonQueryObject options
          (getArgumentsFromRequest req) (route r) req) req) = Rejected e ->
  is_response_error e = false ->
  handlerFactory checkStandardSchema parseJsonQueryObject validateResponse
    isAppRouteNoBody isAppRouteOtherResponse getArgumentsFromRequest options req
  = caught options e req.
Proof.
  intros Hroute Hpass Himpl He. unfold handlerFactory. rewrite Hroute.
  set (v := validate checkStandardSchema parseJsonQueryObject options
              (getArgumentsFromRequest req) (route r) req) in *.
  assert (tryBlock validateResponse isAppRouteNoBody isAppRouteOtherResponse
            options r v req = Threw [] e) as ->.
  { unfold tryBlock, first_failure in *.
    destruct (result_error (pathParamsResult v)); [discriminate|].
    destruct (result_error (headersResult v)); [discriminate|].
    destruct (result_error (queryResult v)); [discriminate|].
    destruct (result_error (bodyResult v)); [discriminate|].
    unfold respond. unfold implementation_arguments in Himpl. rewrite Himpl.
    now destruct e. }
  unfold caught, configured_errorHandler.
  destruct options as [o|]; [|reflexivity].
  now destruct (errorHandler o).
Qed.

(** With response validation on, a body that [validateResponse] refuses is
    not sent: the exception goes the way of any other. *)
Theorem invalid_response_is_not_sent getArgumentsFromRequest options req r
  status body e :
  args_route (getArgumentsFromRequest req) = Some r ->
  first_failure
    (validate checkStandardSchema parseJsonQueryObject options
       (getArgumentsFromRequest req) (route r) req) = None ->
  as_response
    (implementation r
       (implementation_arguments
          (validate checkStandardSchema parseJsonQueryObject options
             (getArgumentsFromRequest req) (route r) req) req))
    = Resolved status body ->
  option_flag options responseValidation = true ->
  validateResponse (route r) status body = inl e ->
  handlerFactory checkStandardSchema parseJsonQueryObject validateResponse
    isAppRouteNoBody isAppRouteOtherResponse getArgumentsFromRequest options req
  = caught options e req.
Proof.
  intros Hroute Hpass Himpl Hflag Hinvalid. unfold handlerFactory. rewrite Hroute.
  set (v := validate checkStandardSchema parseJsonQueryObject options
              (getArgumentsFromRequest req) (route r) req) in *.
  assert (tryBlock validateResponse isAppRouteNoBody isAppRouteOtherResponse
            options r v req = Threw [] e) as ->.
  { unfold tryBlock, first_failure in *.
    destruct (result_error (pathParamsResult v)); [discriminate|].
    destruct (result_error (headersResult v)); [discriminate|].
    destruct (result_error (queryResult v)); [discriminate|].
    destruct (result_error (bodyResult v)); [discriminate|].
    unfold respond. unfold implementation_arguments in Himpl.
    destruct (implementation r _) as [s b|[? ? ? ?|s b|x]];
      simpl in Himpl; try discriminate;
      injection Himpl as -> ->; rewrite Hflag, Hinvalid; reflexivity. }
  unfold caught, configured_errorHandler.
  destruct options as [o|]; [|reflexivity].
  now destruct (errorHandler o).
Qed.

End NextHandlerProperties.

Section NextHandlerWitnesses.
Import Next NextHandler Examples MoreExamples.

Lemma single_route_not_found_witness :
  createSingleRouteHandler zodChecker identityQuery noValidation noBody noBody
    route_get echo_query None post_test
  = Completed [status_end 404].
Proof.
  apply single_route_not_found.
  intros [Hmethod _]. discriminate.
Defined.

Lemma implementation_error_is_surfaced_witness :
  createSingleRouteHandler zodChecker identityQuery noValidation noBody noBody
    route_get failing None get_test
  = Threw [] (OtherError (JString "boom")).
Proof.
  exact (implementation_error_is_surfaced zodChecker identityQuery noValidation
           noBody noBody (singleRouteArguments route_get failing) None get_test
           (mkImpl route_get failing) (OtherError (JString "boom"))
           eq_refl eq_refl eq_refl eq_refl).
Defined.

Lemma invalid_response_is_not_sent_witness :
  createSingleRouteHandler zodChecker identityQuery rejectingValidation
    noBody noBody route_get echo_query (Some validating) get_test
  = Threw [] (OtherError (JString "invalid response")).
Proof.
  exact (invalid_response_is_not_sent zodChecker identityQuery
           rejectingValidation noBody noBody
           (singleRouteArguments route_get echo_query) (Some validating)
           get_test (mkImpl route_get echo_query) 200%Z (JObject [])
           (OtherError (JString "invalid response"))
           eq_refl eq_refl eq_refl eq_refl eq_refl).
Defined.

End NextHandlerWitnesses.

(* ------------------------------------------------------------------ *)
(** ** The dispatcher *)

Section DispatcherProperties.
Import Next Examples MoreExamples.

(** Among the trees in which no router is mistaken for a route (none has
    children named both [implementation] and [method]), which route is
    found depends on the routes and the order in which [Object.keys] gives
    them alone, not on how they are grouped into routers. *)
Theorem dispatch_ignores_nesting router router' query method :
  plain router = true -> plain router' = true ->
  leaves router = leaves router' ->
  getRouteImplementation router query method
  = getRouteImplementation router' query method.
Proof.
  intros Hp Hp' Hleaves.
  rewrite (getRouteImplementation_first_match _ _ _ Hp).
  rewrite (getRouteImplementation_first_match _ _ _ Hp').
  now rewrite Hleaves.
Qed.

Lemma dispatch_ignores_nesting_witness :
  getRouteImplementation combinedRouter ["test"; "3"] "GET"
  = getRouteImplementation nestedRouter ["test"; "3"] "GET".
Proof.
  exact (dispatch_ignores_nesting combinedRouter nestedRouter ["test"; "3"] "GET"
           eq_refl eq_refl eq_refl).
Defined.

Lemma getRouteImplementation_app pre post query method :
  getRouteImplementation (pre ++ post) query method
  = match getRouteImplementation pre query method with
    | Ok None => getRouteImplementation post query method
    | found => found
    end.
Proof.
  induction pre as [|[k c] pre IH]; [reflexivity|].
  simpl. destruct (visit query method c) as [[r|]|msg]; simpl; auto.
Qed.

(** A router with children named [implementation] and [method] passes for
    a route with its implementation.  When the search reaches it, that is,
    when no route defined before it matches, the search throws. *)
Theorem dispatch_throws_on_misleading_router before key children after
  query method :
  plain before = true ->
  find (fun r => isRouteCorrect (route r) query method) (leaves before) = None ->
  has_key "implementation" children = true ->
  has_key "method" children = true ->
  exists msg,
    getRouteImplementation (before ++ (key, RouterNode children) :: after)
      query method = TypeError msg.
Proof.
  intros Hplain Hnone Himpl Hmethod.
  rewrite getRouteImplementation_app.
  rewrite (getRouteImplementation_first_match _ _ _ Hplain), Hnone.
  cbn [getRouteImplementation visit isAppRouteWithImplementation].
  rewrite Himpl, Hmethod. simpl. eauto.
Qed.

Lemma dispatch_throws_on_misleading_router_witness :
  exists msg,
    getRouteImplementation
      ([("get", RouteNode get)] ++ ("group", misleading) :: [("advanced", RouteNode advanced)])
      ["advanced"; "7"] "POST" = TypeError msg.
Proof.
  exact (dispatch_throws_on_misleading_router [("get", RouteNode get)] "group"
           [("implementation", RouteNode get); ("method", RouteNode advanced)]
           [("advanced", RouteNode advanced)] ["advanced"; "7"] "POST"
           eq_refl eq_refl eq_refl eq_refl).
Defined.

End DispatcherProperties.

(* ------------------------------------------------------------------ *)
(** ** The contract builder: what it reads and where it throws *)

Section BuilderProperties.
Import Dsl Primitives Examples.

Variable zodMerge : JsValue -> JsValue -> JsValue.

Lemma map_entries_ext {A B : Type} (f g : A -> Exc B) (l : list (string * A)) :
  Forall (fun kv => f (snd kv) = g (snd kv)) l ->
  map_entries f l = map_entries g l.
Proof.
  induction 1 as [|[k v] l Hv _ IH]; [reflexivity|].
  simpl in *. now rewrite Hv, IH.
Qed.

Lemma applyEntry_options options options' value nested nested' :
  opt_get "baseHeaders" options = opt_get "baseHeaders" options' ->
  nested = nested' ->
  applyEntry zodMerge options value nested
  = applyEntry zodMerge options' value nested'.
Proof.
  intros H ->. unfold applyEntry, applyOptions. now rewrite H.
Qed.

(** The builder reads nothing of the options but [baseHeaders]: two
    option objects with the same [baseHeaders], or none given at all,
    build the same contract. *)
Theorem builder_reads_baseHeaders_only router options options' :
  opt_get "baseHeaders" options = opt_get "baseHeaders" options' ->
  recursivelyApplyOptions zodMerge router options
  = recursivelyApplyOptions zodMerge router options'.
Proof.
  intros H.
  induction router as [| | | | |items IH|props IH|] using JsValue_induction;
    try reflexivity.
  - cbn [recursivelyApplyOptions]. f_equal.
    generalize 0%nat.
    induction items as [|x rest IHrest]; intros i; [reflexivity|].
    inversion IH as [|? ? Hx Hrest]; subst.
    rewrite (applyEntry_options options options' x _ _ H Hx).
    now rewrite (IHrest Hrest (S i)).
  - cbn [recursivelyApplyOptions]. f_equal.
    apply map_entries_ext.
    induction props as [|[k v] rest IHrest]; constructor.
    + inversion IH as [|? ? Hv Hrest]; subst. simpl in *.
      now apply applyEntry_options.
    + inversion IH; subst. auto.
Qed.

(** A router with a child that is not an object makes the builder throw:
    the [in] test of [isAppRoute] does not accept a primitive. *)
Theorem builder_throws_on_primitive_child props options key value :
  In (key, value) props -> is_primitive value = true ->
  exists msg,
    recursivelyApplyOptions zodMerge (JObject props) options = TypeError msg.
Proof.
  intros Hin Hprim. cbn [recursivelyApplyOptions].
  assert (exists msg,
            map_entries
              (fun value =>
                 applyEntry zodMerge options value
                   (recursivelyApplyOptions zodMerge value options)) props
            = TypeError msg) as [msg ->]; [|simpl; eauto].
  induction props as [|[k v] rest IH]; [contradiction|].
  cbn [map_entries]. fold (@map_entries JsValue JsValue).
  destruct Hin as [Heq|Hin].
  - injection Heq as -> ->.
    unfold applyEntry. destruct value; try discriminate; simpl; eauto.
  - destruct (IH Hin) as [msg Hrest]. rewrite Hrest.
    destruct (applyEntry zodMerge options v _); simpl; eauto.
Qed.

End BuilderProperties.

Section BuilderWitnesses.
Import Dsl Primitives Examples.

Lemma builder_reads_baseHeaders_only_witness :
  recursivelyApplyOptions (fun base own => own) (JObject [("getPost", getPost_plain)])
    (JObject [("pathPrefix", JString "/v1"); ("strictStatusCodes", JBool true)])
  = recursivelyApplyOptions (fun base own => own) (JObject [("getPost", getPost_plain)])
      JUndefined.
Proof.
  exact (builder_reads_baseHeaders_only (fun base own => own) (JObject [("getPost", getPost_plain)])
           (JObject [("pathPrefix", JString "/v1");
                     ("strictStatusCodes", JBool true)])
           JUndefined eq_refl).
Defined.

Lemma builder_throws_on_primitive_child_witness :
  exists msg,
    recursivelyApplyOptions (fun base own => own)
      (JObject [("getPost", getPost_plain); ("version", JString "1")])
      JUndefined = TypeError msg.
Proof.
  exact (builder_throws_on_primitive_child (fun base own => own)
           [("getPost", getPost_plain); ("version", JString "1")]
           JUndefined "version" (JString "1") (or_intror (or_introl eq_refl))
           eq_refl).
Defined.

End BuilderWitnesses.

(* ------------------------------------------------------------------ *)
(** ** The schema validator: edge cases *)

Section ValidatorEdges.
Import Zod ZodParse ZodUtils Examples.

Lemma checkZodSchema_passThrough_fields_witness :
  exists merged,
    checkZodSchema data_ab schema_a true = Ok (Success (JObject merged)) /\
    obj_lookup "b" merged = Some (JNumber 2).
Proof.
  exact (checkZodSchema_passThrough_fields (ZodObject [("a", ZodNumber)] strip)
           [("a", JNumber 1); ("b", JNumber 2)] [("a", JNumber 1)] "b"
           eq_refl eq_refl eq_refl).
Defined.

(** [isZodObject] looks for a [safeParse] property and nothing more: a
    plain object that has one which is not [undefined] is taken for a
    schema, and [checkZodSchema] throws on calling it instead of letting
    the data pass. *)
Theorem checkZodSchema_throws_on_lookalike data props passThroughExtraKeys :
  is_undefined (obj_get "safeParse" props) = false ->
  isZodObject (JObject props) = true /\
  exists msg,
    checkZodSchema data (JObject props) passThroughExtraKeys = TypeError msg.
Proof.
  intros H. unfold checkZodSchema, isZodObject. rewrite H. simpl. eauto.
Qed.

Lemma checkZodSchema_throws_on_lookalike_witness :
  isZodObject (JObject [("safeParse", JNull)]) = true /\
  exists msg,
    checkZodSchema data_a (JObject [("safeParse", JNull)]) false = TypeError msg.
Proof.
  exact (checkZodSchema_throws_on_lookalike data_a [("safeParse", JNull)] false
           eq_refl).
Defined.

End ValidatorEdges.

(* ------------------------------------------------------------------ *)
(** ** The Express adapter: [getValue] *)

Section GetValue.
Import ExpressEndpoints AdapterExamples.

Lemma split_where_key k :
  no_separator k = true -> split_where is_path_separator k = [k].
Proof.
  induction k as [|c k IH]; [reflexivity|].
  simpl. intros H. apply andb_true_iff in H. destruct H as [Hc Hk].
  apply negb_true_iff in Hc. rewrite Hc, (IH Hk). reflexivity.
Qed.

Lemma split_where_dot k rest :
  no_separator k = true ->
  split_where is_path_separator (k ++ String "." rest)
  = k :: split_where is_path_separator rest.
Proof.
  induction k as [|c k IH]; [reflexivity|].
  simpl. intros H. apply andb_true_iff in H. destruct H as [Hc Hk].
  apply negb_true_iff in Hc. rewrite Hc, (IH Hk). reflexivity.
Qed.

Lemma split_where_join k keys :
  forallb no_separator (k :: keys) = true ->
  split_where is_path_separator (join "." (k :: keys)) = k :: keys.
Proof.
  revert k. induction keys as [|k' keys IH]; intros k H.
  - simpl in *. apply split_where_key. now rewrite andb_true_r in H.
  - change (forallb no_separator (k :: k' :: keys))
      with (no_separator k && forallb no_separator (k' :: keys)) in H.
    apply andb_true_iff in H. destruct H as [Hk Hrest].
    change (join "." (k :: k' :: keys))
      with (k ++ String "." (join "." (k' :: keys)))%string.
    rewrite (split_where_dot _ _ Hk). now rewrite (IH k' Hrest).
Qed.

(** [getValue] with the keys joined by dots follows the keys one by one,
    provided no key is empty or has a dot or a bracket in it; the default
    stands in for [undefined] only. *)
Theorem getValue_follows_keys data keys defaultValue :
  forallb plain_key keys = true ->
  getValue data (join "." keys) defaultValue
  = let value := fold_left (fun value key => member key value) keys data in
    if is_undefined value then defaultValue else value.
Proof.
  intros H. unfold getValue.
  assert (filter nonempty (split_where is_path_separator (join "." keys)) = keys)
    as ->; [|reflexivity].
  destruct keys as [|k keys]; [reflexivity|].
  rewrite split_where_join.
  - apply forallb_filter_id.
    rewrite forallb_forall in *. intros x Hx. specialize (H x Hx).
    unfold plain_key in H. now apply andb_true_iff in H.
  - rewrite forallb_forall in *. intros x Hx. specialize (H x Hx).
    unfold plain_key in H. now apply andb_true_iff in H.
Qed.

Lemma getValue_follows_keys_witness :
  getValue posts_contract (join "." ["posts"; "getPost"; "path"]) JUndefined
  = JString "/posts/:id".
Proof.
  exact (getValue_follows_keys posts_contract ["posts"; "getPost"; "path"]
           JUndefined eq_refl).
Defined.

End GetValue.

(* ------------------------------------------------------------------ *)
(** ** The Express adapter: the walk over the implementations *)

Section Walk.
Import ExpressEndpoints AdapterExamples.

Lemma RouterObj_induction (P : RouterObj -> Prop) :
  (forall route, P (Func route)) ->
  (forall children, Forall (fun kc => P (snd kc)) children -> P (Obj children)) ->
  (forall p, P (Plain p)) ->
  forall router, P router.
Proof.
  intros Hfunc Hobj Hplain.
  fix IH 1. intros [route|children|p].
  - apply Hfunc.
  - apply Hobj. induction children as [|[k c] rest IHrest]; constructor.
    + apply IH.
    + exact IHrest.
  - apply Hplain.
Qed.

Section Transformer.
Variables S E : Type.
Variable routeTransformer : AppRouteImplementation -> list string -> S -> Run S E.

Lemma run_all_app l1 l2 s :
  run_all S E routeTransformer (l1 ++ l2) s
  = match run_all S E routeTransformer l1 s with
    | Finished s' => run_all S E routeTransformer l2 s'
    | Aborted s' e => Aborted s' e
    end.
Proof.
  revert s. induction l1 as [|[route path] l1 IH]; intros s; [reflexivity|].
  simpl. destruct (routeTransformer route path s); [apply IH | reflexivity].
Qed.

(** The walk calls the transformer on the functions of the tree in
    definition order, each with its key path, and stops at the first call
    that throws. *)
Theorem walk_is_run_all router : forall path s,
  recursivelyApplyExpressRouter S E routeTransformer router path s
  = run_all S E routeTransformer (implementations router path) s.
Proof.
  induction router as [route|children IH|p] using RouterObj_induction;
    intros path s.
  - simpl. now destruct (routeTransformer route path s).
  - cbn [recursivelyApplyExpressRouter implementations]. revert s.
    induction children as [|[k c] rest IHrest]; intros s; [reflexivity|].
    inversion IH as [|? ? Hc Hrest]; subst. simpl in Hc.
    rewrite run_all_app, Hc.
    destruct (run_all S E routeTransformer (implementations c (path ++ [k])) s);
      [now apply IHrest | reflexivity].
  - reflexivity.
Qed.

(** A transformer that throws on one of the functions makes the whole run
    throw, there or before. *)
Lemma run_all_aborts l route path s :
  In (route, path) l ->
  (forall s', aborted (routeTransformer route path s') = true) ->
  aborted (run_all S E routeTransformer l s) = true.
Proof.
  intros Hin Hthrows. revert s.
  induction l as [|[r p] l IH]; intros s; [contradiction|].
  simpl. destruct Hin as [Heq|Hin].
  - injection Heq as -> ->. specialize (Hthrows s).
    now destruct (routeTransformer route path s).
  - destruct (routeTransformer r p s); [now apply IH | reflexivity].
Qed.

End Transformer.

Lemma implementations_prefix router : forall path,
  implementations router path
  = map (fun fp => (fst fp, path ++ snd fp)) (implementations router []).
Proof.
  induction router as [route|children IH|p] using RouterObj_induction;
    intros path.
  - simpl. now rewrite app_nil_r.
  - cbn [implementations].
    induction children as [|[k c] rest IHrest]; [reflexivity|].
    inversion IH as [|? ? Hc Hrest]; subst. simpl in Hc.
    rewrite map_app, (IHrest Hrest), (Hc (path ++ [k])), (Hc ([] ++ [k])).
    rewrite map_map. f_equal. apply map_ext. intros [f q]. simpl.
    now rewrite <- app_assoc.
  - reflexivity.
Qed.

Lemma wf_router_object children :
  wf_router (Obj children)
  = distinct (keys children) && forallb (fun kc => wf_router (snd kc)) children.
Proof.
  cbn [wf_router]. f_equal.
  induction children as [|[k c] rest IH]; [reflexivity|].
  rewrite IH. reflexivity.
Qed.

Lemma implementations_object children :
  implementations (Obj children) []
  = flat_map (fun kc => implementations (snd kc) [fst kc]) children.
Proof.
  cbn [implementations].
  induction children as [|[k c] rest IH]; [reflexivity|].
  rewrite IH. reflexivity.
Qed.

Lemma obj_lookup_In {A : Type} k (v : A) (o : list (string * A)) :
  obj_lookup k o = Some v -> In (k, v) o.
Proof.
  induction o as [|[k' v'] o IH]; [discriminate|].
  simpl. destruct (String.eqb_spec k k') as [->|Hne].
  - intros [= ->]. now left.
  - intros H. right. auto.
Qed.

Lemma In_obj_lookup {A : Type} k (v : A) (o : list (string * A)) :
  distinct (keys o) = true -> In (k, v) o -> obj_lookup k o = Some v.
Proof.
  induction o as [|[k' v'] o IH]; [contradiction|].
  change (keys ((k', v') :: o)) with (k' :: keys o).
  intros Hd Hin. apply distinct_cons in Hd. destruct Hd as [Hk Hd].
  simpl. destruct Hin as [Heq|Hin].
  - injection Heq as -> ->. now rewrite String.eqb_refl.
  - destruct (String.eqb_spec k k') as [->|Hne]; [|auto].
    exfalso. apply Hk. change (In k' (map fst o)).
    apply (in_map fst) in Hin. exact Hin.
Qed.

(** The functions that the walk meets are the functions of the tree, each
    at the path where the tree has it. *)
Theorem implementations_are_the_functions router : forall route path,
  wf_router router = true ->
  In (route, path) (implementations router [])
  <-> implementation_at router path = Some route.
Proof.
  induction router as [f|children IH|p] using RouterObj_induction;
    intros route path Hwf.
  - simpl. split.
    + intros [[= -> <-]|[]]. reflexivity.
    + destruct path; [intros [= ->]; now left | discriminate].
  - rewrite wf_router_object in Hwf. apply andb_true_iff in Hwf.
    destruct Hwf as [Hd Hwf]. rewrite forallb_forall in Hwf.
    rewrite Forall_forall in IH.
    rewrite implementations_object, in_flat_map. split.
    + intros [[k c] [Hin Himpl]]. simpl in Himpl.
      rewrite implementations_prefix in Himpl. apply in_map_iff in Himpl.
      destruct Himpl as [[f q] [[= -> <-] Hfq]].
      simpl. rewrite (In_obj_lookup k c children Hd Hin).
      apply (IH _ Hin); [exact (Hwf _ Hin) | exact Hfq].
    + destruct path as [|k path']; [discriminate|]. simpl.
      destruct (obj_lookup k children) as [c|] eqn:E; [|discriminate].
      apply obj_lookup_In in E. intros Hat.
      exists (k, c). split; [exact E|]. simpl.
      rewrite implementations_prefix. apply in_map_iff.
      exists (route, path'). split; [reflexivity|].
      apply (IH _ E); [exact (Hwf _ E) | exact Hat].
  - simpl. split; [tauto|]. destruct path; discriminate.
Qed.

Lemma implementations_are_the_functions_witness :
  In (created_handler, ["posts"; "createPost"]) (implementations posts_router [])
  <-> implementation_at posts_router ["posts"; "createPost"] = Some created_handler.
Proof.
  exact (implementations_are_the_functions posts_router created_handler
           ["posts"; "createPost"] eq_refl).
Defined.

End Walk.

(* ------------------------------------------------------------------ *)
(** ** The Express adapter: [createExpressEndpoints] *)

Section Endpoints.
Import ExpressEndpoints AdapterExamples.

(** What one call of the callback adds to the router. *)
Lemma endpoint_adds schema options route path app :
  exists added,
    final_state (endpoint schema options route path app) = app ++ added /\
    forall verb p r sch,
      In (Registered verb p r sch) added ->
      r = route /\
      sch = getValue schema (join "." path) JUndefined /\
      Dsl.is_route sch = true /\
      p = opt_get "path" sch /\
      verb_for (opt_get "method" sch) = Some verb.
Proof.
  unfold endpoint.
  set (routerViaPath := getValue schema (join "." path) JUndefined).
  destruct (truthy routerViaPath);
    [|exists []; split; [now rewrite app_nil_r | contradiction]].
  cbn [negb].
  destruct routerViaPath as [| | | | | |props|] eqn:Evia;
    try (exists []; split; [now rewrite app_nil_r | contradiction]).
  cbn [Dsl.isAppRoute].
  destruct (has_key "method" props && has_key "path" props) eqn:Eroute;
    [|exists []; split; [now rewrite app_nil_r | contradiction]].
  unfold verb_for.
  destruct (is_GET (opt_get "method" (JObject props))) eqn:Eget.
  - unfold transformAppRouteQueryImplementation, log_initialization.
    destruct (flag (Express.logInitialization options)).
    + eexists. split; [cbn [final_state]; rewrite <- app_assoc; reflexivity|].
      intros verb p r sch [H|[H|[]]]; [discriminate|].
      injection H as <- <- <- <-. rewrite Eget. repeat split. exact Eroute.
    + eexists. split; [reflexivity|].
      intros verb p r sch [H|[]].
      injection H as <- <- <- <-. rewrite Eget. repeat split. exact Eroute.
  - unfold transformAppRouteMutationImplementation, log_initialization.
    destruct (mutation_verb (opt_get "method" (JObject props))) as [v|] eqn:Everb;
      destruct (flag (Express.logInitialization options)).
    + eexists. split; [cbn [final_state]; rewrite <- app_assoc; reflexivity|].
      intros verb p r sch [H|[H|[]]]; [discriminate|].
      injection H as <- <- <- <-. rewrite Eget. repeat split; assumption.
    + eexists. split; [reflexivity|].
      intros verb p r sch [H|[]].
      injection H as <- <- <- <-. rewrite Eget. repeat split; assumption.
    + eexists. split; [reflexivity|].
      intros verb p r sch [H|[]]. discriminate.
    + exists []. split; [cbn [final_state]; now rewrite app_nil_r | contradiction].
Qed.

Lemma run_all_endpoints schema options l : forall app,
  exists added,
    final_state (run_all (list Event) Exception (endpoint schema options) l app)
    = app ++ added /\
    forall verb p r sch,
      In (Registered verb p r sch) added ->
      exists path,
        In (r, path) l /\
        sch = getValue schema (join "." path) JUndefined /\
        Dsl.is_route sch = true /\
        p = opt_get "path" sch /\
        verb_for (opt_get "method" sch) = Some verb.
Proof.
  induction l as [|[route path] l IH]; intros app.
  - exists []. split; [simpl; now rewrite app_nil_r | contradiction].
  - destruct (endpoint_adds schema options route path app) as [added [Hst Hadded]].
    cbn [run_all].
    destruct (endpoint schema options route path app) as [app'|app' e];
      cbn [final_state] in Hst; subst app'.
    + destruct (IH (app ++ added)) as [added' [Hst' Hadded']].
      exists (added ++ added'). split; [now rewrite app_assoc|].
      intros verb p r sch Hin. apply in_app_or in Hin. destruct Hin as [Hin|Hin].
      * destruct (Hadded _ _ _ _ Hin) as [-> H]. exists path. split; [now left|exact H].
      * destruct (Hadded' _ _ _ _ Hin) as [q [Hq H]]. exists q. split; [now right|exact H].
    + exists added. split; [reflexivity|].
      intros verb p r sch Hin.
      destruct (Hadded _ _ _ _ Hin) as [-> H]. exists path. split; [now left|exact H].
Qed.

(** Whatever [createExpressEndpoints] registers, also when it ends with an
    exception, is a function of the implementation under the contract
    route found at the function's key path: under [get] for a GET route,
    under the verb of its method for a mutation, at the route's path. *)
Theorem registrations_follow_the_contract schema router app options :
  exists added,
    final_state (createExpressEndpoints schema router app options)
    = app ++ added /\
    forall verb path route contractRoute,
      In (Registered verb path route contractRoute) added ->
      exists keys,
        In (route, keys) (implementations router []) /\
        contractRoute = getValue schema (join "." keys) JUndefined /\
        Dsl.is_route contractRoute = true /\
        path = opt_get "path" contractRoute /\
        verb_for (opt_get "method" contractRoute) = Some verb.
Proof.
  unfold createExpressEndpoints. rewrite walk_is_run_all.
  apply run_all_endpoints.
Qed.

(** A callback that throws leaves the router as it was. *)
Lemma endpoint_abort_keeps_state schema options route path app app' e :
  endpoint schema options route path app = Aborted app' e -> app' = app.
Proof.
  unfold endpoint.
  destruct (negb (truthy (getValue schema (join "." path) JUndefined)));
    [now intros [= <- _]|].
  destruct (Dsl.isAppRoute (getValue schema (join "." path) JUndefined))
    as [[|]|msg]; try (now intros [= <- _]).
  destruct (is_GET _); discriminate.
Qed.

(** A run that throws does so at one of the functions, after the calls on
    the functions before it have all returned. *)
Lemma run_all_abort_point {S E : Type}
  (t : AppRouteImplementation -> list string -> S -> Run S E) l :
  forall s s2 e,
    run_all S E t l s = Aborted s2 e ->
    exists before route path after s1,
      l = before ++ (route, path) :: after /\
      run_all S E t before s = Finished s1 /\
      t route path s1 = Aborted s2 e.
Proof.
  induction l as [|[r p] l IH]; intros s s2 e H; [discriminate|].
  simpl in H. destruct (t r p s) as [s'|s' e'] eqn:Et.
  - destruct (IH _ _ _ H) as [before [route [path [after [s1 [Hl [Hrun Hat]]]]]]].
    exists ((r, p) :: before), route, path, after, s1.
    split; [now rewrite Hl|]. split; [simpl; now rewrite Et | exact Hat].
  - injection H as <- <-.
    exists [], r, p, l, s. split; [reflexivity|]. split; [reflexivity | exact Et].
Qed.

(** A function of the implementation at a key path where the contract has
    nothing makes [createExpressEndpoints] throw.  It throws at the first
    function, in the order of the walk, whose callback throws; the router
    then holds what it held and what the functions before that one have
    registered, and nothing of the failing one. *)
Theorem missing_contract_route_throws schema router app options route keys :
  In (route, keys) (implementations router []) ->
  truthy (getValue schema (join "." keys) JUndefined) = false ->
  exists before failing path after added e,
    implementations router [] = before ++ (failing, path) :: after /\
    run_all (list Event) Exception
      (endpoint schema (options_or_default options)) before app
      = Finished (app ++ added) /\
    endpoint schema (options_or_default options) failing path (app ++ added)
      = Aborted (app ++ added) e /\
    createExpressEndpoints schema router app options = Aborted (app ++ added) e.
Proof.
  intros Hin Hmissing. unfold createExpressEndpoints.
  fold (options_or_default options). rewrite walk_is_run_all.
  set (t := endpoint schema (options_or_default options)).
  assert (aborted (run_all (list Event) Exception t (implementations router []) app)
          = true) as Habort.
  { apply (run_all_aborts _ _ _ _ route keys); [exact Hin|].
    intros app'. unfold t, endpoint. now rewrite Hmissing. }
  destruct (run_all (list Event) Exception t (implementations router []) app)
    as [s|s2 e] eqn:Erun; [discriminate|].
  destruct (run_all_abort_point t _ _ _ _ Erun)
    as [before [failing [path [after [s1 [Hl [Hbefore Hat]]]]]]].
  pose proof (endpoint_abort_keeps_state _ _ _ _ _ _ _ Hat) as ->.
  destruct (run_all_endpoints schema (options_or_default options) before app)
    as [added [Hst _]].
  fold t in Hst. rewrite Hbefore in Hst. cbn [final_state] in Hst. subst s1.
  exists before, failing, path, after, added, e.
  repeat split; assumption.
Qed.

Lemma missing_contract_route_throws_witness :
  exists before failing path after added e,
    implementations extra_router [] = before ++ (failing, path) :: after /\
    run_all (list Event) Exception
      (endpoint posts_contract (options_or_default None)) before []
      = Finished ([] ++ added) /\
    endpoint posts_contract (options_or_default None) failing path ([] ++ added)
      = Aborted ([] ++ added) e /\
    createExpressEndpoints posts_contract extra_router [] None
      = Aborted ([] ++ added) e.
Proof.
  exact (missing_contract_route_throws posts_contract extra_router [] None
           ok_handler ["posts"; "removePost"]
           (or_intror (or_introl eq_refl)) eq_refl).
Defined.

(** The run of the witness: the GET route is registered, then the walk
    meets [removePost]. *)
Example createExpressEndpoints_extra_router :
  createExpressEndpoints posts_contract extra_router [] None
  = Aborted
      [Logged (JString "GET") (JString "/posts/:id");
       Registered app_get (JString "/posts/:id") ok_handler
         (JObject [("method", JString "GET"); ("path", JString "/posts/:id")])]
      (Error "[ts-rest] No router found for path posts.removePost").
Proof. reflexivity. Qed.

End Endpoints.

(* ------------------------------------------------------------------ *)
(** ** The Express adapter: request validation in the handlers *)

Section ExpressHandlerProperties.
Import ZodParse ZodUtils Express ExpressEndpoints ExpressHandlers AdapterExamples.

Variable parseJsonQueryObject : JsValue -> JsValue.
Variable validateResponse : JsValue -> Z -> JsValue -> JsValue + JsValue.

(** A route that declares no schema for the path parameters, the headers
    or the query lets every request through, with the three as they came
    (the query parsed in [jsonQuery] mode). *)
Theorem validateRequest_without_schemas req schema options :
  isZodObject (Next.pathParams schema) = false ->
  isZodObject (Next.headers schema) = false ->
  isZodObject (Next.query schema) = false ->
  validateRequest parseJsonQueryObject req schema options
  = Ok (Results (params req) (headers req)
          (checked_query parseJsonQueryObject options req)).
Proof.
  intros Hp Hh Hq. unfold validateRequest.
  rewrite (checkZodSchema_without_schema _ _ true Hp). cbn [bindExc].
  rewrite (checkZodSchema_without_schema _ _ true Hh). cbn [bindExc].
  unfold checked_query.
  destruct (jsonQuery options) as [[|]|];
    now rewrite (checkZodSchema_without_schema _ _ false Hq).
Qed.

(** The mutation handler answers 400 with the error of the first check
    that fails, in the order path parameters, headers, query, body, when
    the checks before it pass; the implementation is not called. *)
Theorem mutation_first_failure route schema options req i error :
  nth_error (request_checks parseJsonQueryObject schema options (base req)) i
    = Some (Ok (Failure error)) ->
  (forall j r, (j < i)%nat ->
     nth_error (request_checks parseJsonQueryObject schema options (base req)) j
       = Some r ->
     exists data, r = Ok (Success data)) ->
  mutationHandler parseJsonQueryObject validateResponse route schema options req
  = status_send 400 (SentError error).
Proof.
  intros Hfail Hbefore.
  assert (forall j, (j < i)%nat ->
            match nth_error
                    (request_checks parseJsonQueryObject schema options (base req)) j
            with
            | Some r => exists data, r = Ok (Success data)
            | None => True
            end) as Hpass.
  { intros j Hj.
    destruct (nth_error _ j) as [r|] eqn:E; [|exact I]. exact (Hbefore j r Hj E). }
  unfold mutationHandler, validateRequest.
  unfold request_checks, checked_query in *.
  destruct i as [|[|[|[|i]]]]; simpl in Hfail.
  - injection Hfail as Hfail. now rewrite Hfail.
  - destruct (Hpass 0%nat) as [d0 H0]; [lia|]. simpl in H0.
    injection Hfail as Hfail. rewrite H0. cbn [bindExc]. now rewrite Hfail.
  - destruct (Hpass 0%nat) as [d0 H0]; [lia|].
    destruct (Hpass 1%nat) as [d1 H1]; [lia|]. simpl in H0, H1.
    injection Hfail as Hfail. rewrite H0. cbn [bindExc]. rewrite H1. cbn [bindExc].
    destruct (jsonQuery options) as [[|]|]; now rewrite Hfail.
  - destruct (Hpass 0%nat) as [d0 H0]; [lia|].
    destruct (Hpass 1%nat) as [d1 H1]; [lia|].
    destruct (Hpass 2%nat) as [d2 H2]; [lia|]. simpl in H0, H1, H2.
    injection Hfail as Hfail. rewrite H0. cbn [bindExc]. rewrite H1. cbn [bindExc].
    destruct (jsonQuery options) as [[|]|]; rewrite H2; cbn [bindExc];
      now rewrite Hfail.
  - destruct i; discriminate.
Qed.

End ExpressHandlerProperties.

Section ExpressHandlerWitnesses.
Import Zod ZodParse ZodUtils Express ExpressEndpoints ExpressHandlers AdapterExamples.

Lemma validateRequest_without_schemas_witness :
  validateRequest (fun q => q) bare_request ping no_options
  = Ok (Results (JObject [("id", JString "7")]) (JObject []) (JObject [])).
Proof.
  exact (validateRequest_without_schemas (fun q => q) bare_request ping
           no_options eq_refl eq_refl eq_refl).
Defined.

Lemma mutation_first_failure_witness :
  mutationHandler (fun q => q) (fun _ _ b => inr b) ok_handler updatePost
    no_options bare_upload
  = status_send 400 (SentError [mkIssue invalid_type ["title"]]).
Proof.
  apply (mutation_first_failure (fun q => q) (fun _ _ b => inr b) ok_handler
           updatePost no_options bare_upload 3 [mkIssue invalid_type ["title"]]
           eq_refl).
  intros [|[|[|j]]] r Hj H; try lia; injection H as <-; eexists; reflexivity.
Defined.

End ExpressHandlerWitnesses.

(* ------------------------------------------------------------------ *)
(** ** The Nest adapter *)

Section NestProperties.
Import ZodParse ZodUtils Nest AdapterExamples.

Variable parseJsonQueryObject : JsValue -> JsValue.

(** For a GET route the decorator validates the body against [null], that
    is, not at all: the controller gets [req.body] as it came, whatever
    body schema the route carries. *)
Theorem get_body_is_not_validated appRoute ofHandler ofClass req shape :
  Next.method appRoute = Next.GET ->
  ApiDecorator parseJsonQueryObject (Some appRoute) ofHandler ofClass req
    = Returns shape ->
  body shape = Express.body req.
Proof.
  intros Hget. unfold ApiDecorator, check. rewrite Hget.
  destruct (checkZodSchema _ (Next.query appRoute) false) as [[q|e]|m];
    try discriminate.
  rewrite (checkZodSchema_without_schema (Express.body req) JNull false eq_refl).
  destruct (checkZodSchema _ (Next.pathParams appRoute) true) as [[p|e]|m];
    try discriminate.
  now intros [= <-].
Qed.

(** The interceptor passes the body on as it is, and sets the status,
    when response parsing is off or the contract has no schema for the
    status. *)
Theorem unparsed_response_passes appRoute ofHandler ofClass props status :
  obj_lookup "status" props = Some (JNumber status) ->
  enabled ofHandler ofClass = false
  \/ isZodObject (Next.lookup_response (Next.responses appRoute) status) = false ->
  intercept (Some appRoute) ofHandler ofClass (JObject props)
  = Returns (mkIntercepted (Some status) (obj_get "body" props)).
Proof.
  intros Hstatus Hno. unfold intercept, isAppRouteResponse.
  rewrite has_key_lookup. cbn [opt_get]. unfold obj_get at 1 2.
  rewrite Hstatus. cbn [andb].
  destruct Hno as [Hoff|Hundeclared].
  - rewrite Hoff.
    now rewrite (checkZodSchema_without_schema _ JUndefined false eq_refl).
  - destruct (enabled ofHandler ofClass).
    + now rewrite (checkZodSchema_without_schema _ _ false Hundeclared).
    + now rewrite (checkZodSchema_without_schema _ JUndefined false eq_refl).
Qed.

End NestProperties.

Section NestWitnesses.
Import Zod ZodParse ZodUtils Nest AdapterExamples.

Lemma get_body_is_not_validated_witness :
  ApiDecorator (fun q => q) (Some readPost) JUndefined JUndefined bare_request
    = Returns (mkShape (JObject []) (JObject [("id", JString "7")]) (JObject []))
  /\ body (mkShape (JObject []) (JObject [("id", JString "7")]) (JObject []))
     = Express.body bare_request.
Proof.
  split; [reflexivity|].
  exact (get_body_is_not_validated (fun q => q) readPost JUndefined JUndefined
           bare_request _ eq_refl eq_refl).
Defined.

Lemma unparsed_response_passes_witness :
  intercept (Some readPost) (JBool true) JUndefined
    (JObject [("status", JNumber 404);
              ("body", JObject [("message", JString "no such post")])])
  = Returns (mkIntercepted (Some 404%Z)
               (JObject [("message", JString "no such post")])).
Proof.
  exact (unparsed_response_passes readPost (JBool true) JUndefined
           [("status", JNumber 404);
            ("body", JObject [("message", JString "no such post")])]
           404%Z eq_refl (or_intror eq_refl)).
Defined.

End NestWitnesses.
